(** * cortexDecoder: the scanner session controller

    A shallow embedding of the scanner screen of [src/App.tsx] (the
    continuous, live-switching screen) and of [src/unnamed/part_000] (the
    screen with the explicit idle / scanning / result lifecycle), followed by
    the properties of the session controller.

    The screen runs on a single cooperative thread.  A handler runs to
    completion; the only place where a handler is suspended for an
    unbounded time is [await CDLicense.activateLicense(licenseKey)].  An
    [await] of an already settled promise resumes in the same turn of the
    loop, before any other event is delivered, and is therefore part of the
    same step here.  The native SDK is an external collaborator: it is
    represented by the last value given to each of its setters, by the set
    of attached listeners and by the log of the calls issued to it.  Any of
    its synchronous calls may throw, as the [try]/[catch] of the stop
    routine expects; [addListener] and [subscription.remove()] are
    operations of the event emitter and return normally.  One instance of
    the screen is described, from its first render on: [App] mounts
    [ScannerScreen] once. *)

From stdpp Require Import base list strings.

Local Open Scope string_scope.

(** ** The native SDK ([cortex-decoder-react-native]) *)

(** The synchronous calls the screen issues to [CDLicense], [CDCamera] and
    [CDDecoder], and the one asynchronous call, [activateLicense]. *)
Inductive SdkCall : Type :=
  | SetCustomerId (customerId : string)
  | ActivateLicense (licenseKey : string)
  | StartCamera
  | StartPreview
  | SetVideoCapturing (on : bool)
  | SetDecoding (on : bool)
  | StopPreview
  | StopCamera.

#[global] Instance SdkCall_eq_dec : EqDecision SdkCall.
Proof. solve_decision. Defined.

(** [CDResult.CDDecodeStatus]: the screen only tells [success] from the other
    members of the enumeration. *)
Inductive CDDecodeStatus : Type :=
  | success
  | notSuccess (code : nat).

#[global] Instance CDDecodeStatus_eq_dec : EqDecision CDDecodeStatus.
Proof. solve_decision. Defined.

Record CDResult : Type := {
  status : CDDecodeStatus;
  barcodeData : string
}.

(** A code of [react-native-vision-camera]: [value?: string]. *)
Record Code : Type := { value : option string }.

Record Native : Type := {
  cameraOn : bool;
  previewOn : bool;
  videoCapturing : bool;
  decoding : bool;
  customerId : option string;
  (** handles of the ['onDecodeResult'] listeners attached to the emitter *)
  listeners : list nat;
  nextHandle : nat;
  (** every call issued so far, the most recent first *)
  calls : list SdkCall
}.

Definition native0 : Native :=
  {| cameraOn := false; previewOn := false; videoCapturing := false;
     decoding := false; customerId := None; listeners := [];
     nextHandle := 0; calls := [] |}.

Definition log_call (c : SdkCall) (n : Native) : Native :=
  {| cameraOn := cameraOn n; previewOn := previewOn n;
     videoCapturing := videoCapturing n; decoding := decoding n;
     customerId := customerId n; listeners := listeners n;
     nextHandle := nextHandle n; calls := c :: calls n |}.

(** What a call that returns normally does to the native side. *)
Definition native_apply (c : SdkCall) (n : Native) : Native :=
  match c with
  | SetCustomerId id =>
      {| cameraOn := cameraOn n; previewOn := previewOn n;
         videoCapturing := videoCapturing n; decoding := decoding n;
         customerId := Some id; listeners := listeners n;
         nextHandle := nextHandle n; calls := calls n |}
  | ActivateLicense _ => n
  | StartCamera =>
      {| cameraOn := true; previewOn := previewOn n;
         videoCapturing := videoCapturing n; decoding := decoding n;
         customerId := customerId n; listeners := listeners n;
         nextHandle := nextHandle n; calls := calls n |}
  | StopCamera =>
      {| cameraOn := false; previewOn := previewOn n;
         videoCapturing := videoCapturing n; decoding := decoding n;
         customerId := customerId n; listeners := listeners n;
         nextHandle := nextHandle n; calls := calls n |}
  | StartPreview =>
      {| cameraOn := cameraOn n; previewOn := true;
         videoCapturing := videoCapturing n; decoding := decoding n;
         customerId := customerId n; listeners := listeners n;
         nextHandle := nextHandle n; calls := calls n |}
  | StopPreview =>
      {| cameraOn := cameraOn n; previewOn := false;
         videoCapturing := videoCapturing n; decoding := decoding n;
         customerId := customerId n; listeners := listeners n;
         nextHandle := nextHandle n; calls := calls n |}
  | SetVideoCapturing b =>
      {| cameraOn := cameraOn n; previewOn := previewOn n;
         videoCapturing := b; decoding := decoding n;
         customerId := customerId n; listeners := listeners n;
         nextHandle := nextHandle n; calls := calls n |}
  | SetDecoding b =>
      {| cameraOn := cameraOn n; previewOn := previewOn n;
         videoCapturing := videoCapturing n; decoding := b;
         customerId := customerId n; listeners := listeners n;
         nextHandle := nextHandle n; calls := calls n |}
  end.

(** [CDDecoder.addListener('onDecodeResult', ...)]: a fresh handle. *)
Definition native_addListener (n : Native) : nat * Native :=
  (nextHandle n,
   {| cameraOn := cameraOn n; previewOn := previewOn n;
      videoCapturing := videoCapturing n; decoding := decoding n;
      customerId := customerId n; listeners := listeners n ++ [nextHandle n];
      nextHandle := S (nextHandle n); calls := calls n |}).

(** [subscription.remove()]. *)
Definition native_removeListener (h : nat) (n : Native) : Native :=
  {| cameraOn := cameraOn n; previewOn := previewOn n;
     videoCapturing := videoCapturing n; decoding := decoding n;
     customerId := customerId n;
     listeners := filter (fun h' => h' ≠ h) (listeners n);
     nextHandle := nextHandle n; calls := calls n |}.

(** ** The part of the component both screens share *)

(** [process.env] and the facts of the device the screen reads once. *)
Record Config : Type := {
  EXPO_PUBLIC_CORTEX_CUSTOMER_ID : option string;
  EXPO_PUBLIC_CORTEX_LICENSE_KEY : option string;
  (** [Platform.OS === 'android'] *)
  platformIsAndroid : bool;
  (** [useCameraDevice('back')] found a device *)
  backDevice : bool
}.

(** What a handler can throw. *)
Inductive Error : Type :=
  | MissingCredential (message : string)
  | ActivationError
  | NativeError (c : SdkCall).

(** The two refs of the component and the native side they drive. *)
Record Core : Type := {
  native : Native;
  subscriptionRef : option nat;
  licenseActivatedRef : bool
}.

Definition core0 : Core :=
  {| native := native0; subscriptionRef := None; licenseActivatedRef := false |}.

Definition set_native (n : Native) (c : Core) : Core :=
  {| native := n; subscriptionRef := subscriptionRef c;
     licenseActivatedRef := licenseActivatedRef c |}.

Definition set_subscriptionRef (r : option nat) (c : Core) : Core :=
  {| native := native c; subscriptionRef := r;
     licenseActivatedRef := licenseActivatedRef c |}.

Definition set_licenseActivatedRef (b : bool) (c : Core) : Core :=
  {| native := native c; subscriptionRef := subscriptionRef c;
     licenseActivatedRef := b |}.

(** A synchronous stretch of a handler: it returns or throws, and what it
    did to the refs and to the native side before throwing stays done. *)
Inductive Outcome (A : Type) : Type :=
  | Returned (a : A)
  | Thrown (e : Error).
Arguments Returned {A} a.
Arguments Thrown {A} e.

Definition Sync (A : Type) : Type := Core -> Outcome A * Core.

Definition ret {A} (a : A) : Sync A := fun c => (Returned a, c).

Definition throw {A} (e : Error) : Sync A := fun c => (Thrown e, c).

Definition bind {A B} (m : Sync A) (k : A -> Sync B) : Sync B :=
  fun c =>
    match m c with
    | (Returned a, c') => k a c'
    | (Thrown e, c') => (Thrown e, c')
    end.

(** [try { m } catch {}] *)
Definition try_catch (m : Sync unit) : Sync unit :=
  fun c =>
    match m c with
    | (Returned _, c') => (Returned (), c')
    | (Thrown _, c') => (Returned (), c')
    end.

Notation "'do' x <- m ; k" := (bind m (fun x => k))
  (at level 10, x name, m at level 100, k at level 200, only parsing).
Notation "m ;; k" := (bind m (fun _ => k))
  (at level 100, k at level 200, right associativity, only parsing).

(** Which synchronous SDK calls throw during the current handler. *)
Definition Faults : Type := SdkCall -> bool.

Definition noFault : Faults := fun _ => false.

(** A synchronous SDK call: it is issued, then throws or takes effect. *)
Definition sdk (throws : Faults) (c : SdkCall) : Sync unit :=
  fun s =>
    let n := log_call c (native s) in
    if throws c then (Thrown (NativeError c), set_native n s)
    else (Returned (), set_native (native_apply c n) s).

(** [CDLicense.activateLicense(licenseKey)] up to the promise it returns. *)
Definition activateLicense (licenseKey : string) : Sync unit :=
  fun s => (Returned (), set_native (log_call (ActivateLicense licenseKey) (native s)) s).

(** How far an [async] function got in this turn. *)
Inductive Progress : Type :=
  | Completed
  | AwaitingActivation.

Section Controller.

Variable cfg : Config.
(** the text of the [Error] thrown for a missing key; the screens differ *)
Variable missingKeyMessage : string.
Variable throws : Faults.

(** [ensureLicenseActivated], up to [await CDLicense.activateLicense]. *)
Definition ensureLicenseActivated_begin : Sync Progress :=
  fun s =>
    if licenseActivatedRef s then ret Completed s
    else
      let customerId :=
        default "ReplaceExpirationLib" (EXPO_PUBLIC_CORTEX_CUSTOMER_ID cfg) in
      match EXPO_PUBLIC_CORTEX_LICENSE_KEY cfg with
      | None => throw (MissingCredential missingKeyMessage) s
      | Some licenseKey =>
          if decide (licenseKey = "")
          then throw (MissingCredential missingKeyMessage) s
          else (sdk throws (SetCustomerId customerId) ;;
                activateLicense licenseKey ;;
                ret AwaitingActivation) s
      end.

(** [ensureLicenseActivated], from the settlement of the promise on. *)
Definition ensureLicenseActivated_resume (fulfilled : bool) : Sync unit :=
  fun s =>
    if fulfilled then (Returned (), set_licenseActivatedRef true s)
    else throw ActivationError s.

(** [if (!subscriptionRef.current) subscriptionRef.current = CDDecoder.addListener(...)] *)
Definition subscribe : Sync unit :=
  fun s =>
    match subscriptionRef s with
    | Some _ => (Returned (), s)
    | None =>
        let (h, n) := native_addListener (native s) in
        (Returned (), set_subscriptionRef (Some h) (set_native n s))
    end.

(** [startCortex] after [await ensureLicenseActivated()]. *)
Definition startCortex_afterLicense : Sync unit :=
  subscribe ;;
  sdk throws StartCamera ;;
  sdk throws StartPreview ;;
  sdk throws (SetVideoCapturing true) ;;
  sdk throws (SetDecoding true).

(** [startCortex], up to the first suspension. *)
Definition startCortex_begin : Sync Progress :=
  do p <- ensureLicenseActivated_begin;
  match p with
  | Completed => startCortex_afterLicense ;; ret Completed
  | AwaitingActivation => ret AwaitingActivation
  end.

(** [startCortex], resumed when [activateLicense] settles. *)
Definition startCortex_resume (fulfilled : bool) : Sync unit :=
  ensureLicenseActivated_resume fulfilled ;;
  startCortex_afterLicense.

(** [stopAllCameras] of [App.tsx], [stopAll] of the other screen. *)
Definition stopAllCameras : Sync unit :=
  try_catch
    (sdk throws (SetDecoding false) ;;
     sdk throws (SetVideoCapturing false) ;;
     sdk throws StopPreview ;;
     sdk throws StopCamera) ;;
  (fun s =>
     match subscriptionRef s with
     | Some h => (Returned (), set_native (native_removeListener h (native s)) s)
     | None => (Returned (), s)
     end) ;;
  (fun s => (Returned (), set_subscriptionRef None s)).

(** An invocation of [ensureLicenseActivated] that is awaited before
    anything else happens; [fulfilled] is how the activation settles. *)
Definition ensureLicenseActivated (fulfilled : bool) : Sync unit :=
  do p <- ensureLicenseActivated_begin;
  match p with
  | Completed => ret ()
  | AwaitingActivation => ensureLicenseActivated_resume fulfilled
  end.

(** [startCortex] awaited in the same way. *)
Definition startCortex (fulfilled : bool) : Sync unit :=
  do p <- startCortex_begin;
  match p with
  | Completed => ret ()
  | AwaitingActivation => startCortex_resume fulfilled
  end.

End Controller.

Inductive ScannerType : Type := cortex | vision.

#[global] Instance ScannerType_eq_dec : EqDecision ScannerType.
Proof. solve_decision. Defined.

(** The listener of [startCortex] reads [results?.[0]?.status]: a missing
    batch and an empty batch both give [undefined]. *)
Definition firstResult (results : option (list CDResult)) : option CDResult :=
  match results with
  | Some (r :: _) => Some r
  | _ => None
  end.

(** ** [src/App.tsx]: the backend runs while the screen is mounted *)
Module Live.

Record State : Type := {
  core : Core;
  scannerType : ScannerType;
  lastResult : string;
  androidPermission : bool;
  hasPermission : bool;
  (** the [mounted] variable of every run of the [scannerType] effect *)
  mounted : list bool;
  (** the run whose cleanup is registered *)
  effect : option nat;
  (** the runs whose [startCortex] is suspended in [activateLicense] *)
  pending : list nat;
  screenMounted : bool;
  (** this instance of the screen has been unmounted; [App] mounts one *)
  unmounted : bool;
  (** rejections of [start()], which nothing handles *)
  unhandled : list Error
}.

Definition missingKeyMessage : string := "Missing EXPO_PUBLIC_CORTEX_LICENSE_KEY".

(** The first render: the initial values of [useState] and [useRef];
    [hasPermission] is what [useCameraPermission] reports at that time. *)
Definition init (cfg : Config) (hasPermission0 : bool) : State :=
  {| core := core0; scannerType := cortex; lastResult := "";
     androidPermission := negb (platformIsAndroid cfg);
     hasPermission := hasPermission0;
     mounted := []; effect := None; pending := [];
     screenMounted := false; unmounted := false; unhandled := [] |}.

Definition set_core (c : Core) (s : State) : State :=
  {| core := c; scannerType := scannerType s; lastResult := lastResult s;
     androidPermission := androidPermission s; hasPermission := hasPermission s;
     mounted := mounted s; effect := effect s; pending := pending s;
     screenMounted := screenMounted s;
     unmounted := unmounted s; unhandled := unhandled s |}.

Definition setScannerType (t : ScannerType) (s : State) : State :=
  {| core := core s; scannerType := t; lastResult := lastResult s;
     androidPermission := androidPermission s; hasPermission := hasPermission s;
     mounted := mounted s; effect := effect s; pending := pending s;
     screenMounted := screenMounted s;
     unmounted := unmounted s; unhandled := unhandled s |}.

Definition setLastResult (r : string) (s : State) : State :=
  {| core := core s; scannerType := scannerType s; lastResult := r;
     androidPermission := androidPermission s; hasPermission := hasPermission s;
     mounted := mounted s; effect := effect s; pending := pending s;
     screenMounted := screenMounted s;
     unmounted := unmounted s; unhandled := unhandled s |}.

Definition setAndroidPermission (b : bool) (s : State) : State :=
  {| core := core s; scannerType := scannerType s; lastResult := lastResult s;
     androidPermission := b; hasPermission := hasPermission s;
     mounted := mounted s; effect := effect s; pending := pending s;
     screenMounted := screenMounted s;
     unmounted := unmounted s; unhandled := unhandled s |}.

Definition set_hasPermission (b : bool) (s : State) : State :=
  {| core := core s; scannerType := scannerType s; lastResult := lastResult s;
     androidPermission := androidPermission s; hasPermission := b;
     mounted := mounted s; effect := effect s; pending := pending s;
     screenMounted := screenMounted s;
     unmounted := unmounted s; unhandled := unhandled s |}.

Definition set_mounted (m : list bool) (e : option nat) (s : State) : State :=
  {| core := core s; scannerType := scannerType s; lastResult := lastResult s;
     androidPermission := androidPermission s; hasPermission := hasPermission s;
     mounted := m; effect := e; pending := pending s;
     screenMounted := screenMounted s;
     unmounted := unmounted s; unhandled := unhandled s |}.

Definition set_pending (p : list nat) (s : State) : State :=
  {| core := core s; scannerType := scannerType s; lastResult := lastResult s;
     androidPermission := androidPermission s; hasPermission := hasPermission s;
     mounted := mounted s; effect := effect s; pending := p;
     screenMounted := screenMounted s;
     unmounted := unmounted s; unhandled := unhandled s |}.

(** Mounting ([true]) and unmounting ([false]) the instance. *)
Definition set_screenMounted (b : bool) (s : State) : State :=
  {| core := core s; scannerType := scannerType s; lastResult := lastResult s;
     androidPermission := androidPermission s; hasPermission := hasPermission s;
     mounted := mounted s; effect := effect s; pending := pending s;
     screenMounted := b; unmounted := negb b; unhandled := unhandled s |}.

Definition reject (e : Error) (s : State) : State :=
  {| core := core s; scannerType := scannerType s; lastResult := lastResult s;
     androidPermission := androidPermission s; hasPermission := hasPermission s;
     mounted := mounted s; effect := effect s; pending := pending s;
     screenMounted := screenMounted s;
     unmounted := unmounted s; unhandled := e :: unhandled s |}.

(** The value of the [mounted] variable of run [e]. *)
Definition mountedOf (e : nat) (s : State) : bool :=
  default false (mounted s !! e).

(** [onCodeScanned] of [useCodeScanner]. *)
Definition onCodeScanned (codes : list Code) (s : State) : State :=
  match codes with
  | c :: _ => setLastResult (default "" (value c)) s
  | [] => s
  end.

(** The listener given to [CDDecoder.addListener]. *)
Definition onDecodeResult (results : option (list CDResult)) (s : State) : State :=
  match firstResult results with
  | Some r =>
      if decide (status r = success) then setLastResult (barcodeData r) s else s
  | None => s
  end.

(** What the component returns. *)
Inductive CameraElement : Type := CDCameraView | Camera | NoCamera.

Inductive Rendered : Type :=
  | NotMounted
  | PermissionMessage
  | ScannerView (camera : CameraElement) (resultBox : option string).

Definition render (cfg : Config) (s : State) : Rendered :=
  if negb (screenMounted s) then NotMounted
  else if negb (androidPermission s) || negb (hasPermission s) then PermissionMessage
  else
    ScannerView
      (match scannerType s with
       | cortex => CDCameraView
       | vision => if backDevice cfg then Camera else NoCamera
       end)
      (if decide (lastResult s = "") then None else Some (lastResult s)).

Section Handlers.

Variable cfg : Config.
Variable throws : Faults.

Definition stopAllCameras (s : State) : State :=
  set_core (stopAllCameras throws (core s)).2 s.

(** [start] of the run [e] of the [scannerType] effect. *)
Definition start (e : nat) (s : State) : State :=
  let s := stopAllCameras s in
  if negb (mountedOf e s) then s
  else
    match scannerType s with
    | cortex =>
        match startCortex_begin cfg missingKeyMessage throws (core s) with
        | (Returned Completed, c) => set_core c s
        | (Returned AwaitingActivation, c) =>
            set_pending (pending s ++ [e]) (set_core c s)
        | (Thrown err, c) => reject err (set_core c s)
        end
    | vision => s
    end.

(** The body of the effect: [let mounted = true; ...; start()]. *)
Definition runEffect (s : State) : State :=
  let e := length (mounted s) in
  start e (set_mounted (mounted s ++ [true]) (Some e) s).

(** The function the effect returns. *)
Definition cleanup (s : State) : State :=
  match effect s with
  | Some e => stopAllCameras (set_mounted (<[e := false]> (mounted s)) None s)
  | None => s
  end.

(** The switch buttons are part of the scanner view only. *)
Definition buttonsShown (s : State) : bool :=
  screenMounted s && androidPermission s && hasPermission s.

(** [onPress] of a switch button, and the effect React re-runs when
    [scannerType] has changed. *)
Definition press (t : ScannerType) (s : State) : State :=
  if buttonsShown s then
    let changed := bool_decide (scannerType s ≠ t) in
    let s := setScannerType t (setLastResult "" s) in
    if changed then runEffect (cleanup s) else s
  else s.

(** [activateLicense] of the [i]-th suspended [startCortex] settles. *)
Definition settle (i : nat) (fulfilled : bool) (s : State) : State :=
  match pending s !! i with
  | Some _ =>
      let s := set_pending (delete i (pending s)) s in
      match startCortex_resume throws fulfilled (core s) with
      | (Returned _, c) => set_core c s
      | (Thrown err, c) => reject err (set_core c s)
      end
  | None => s
  end.

End Handlers.

Inductive Event : Type :=
  | Mount (throws : Faults)
  | Unmount (throws : Faults)
  (** [PermissionsAndroid.request] settles *)
  | AndroidPermissionResult (granted : bool)
  (** [useCameraPermission] reports a new value *)
  | CameraPermission (granted : bool)
  | Press (t : ScannerType) (throws : Faults)
  | ActivationSettled (i : nat) (fulfilled : bool) (throws : Faults)
  (** the emitter fires ['onDecodeResult'] *)
  | DecodeResult (results : option (list CDResult))
  (** the vision camera calls [onCodeScanned] *)
  | CodeScanned (codes : list Code).

Definition step (cfg : Config) (ev : Event) (s : State) : State :=
  match ev with
  | Mount throws =>
      if screenMounted s || unmounted s then s
      else runEffect cfg throws (set_screenMounted true s)
  | Unmount throws =>
      if screenMounted s then set_screenMounted false (cleanup throws s) else s
  | AndroidPermissionResult granted =>
      if platformIsAndroid cfg then setAndroidPermission granted s else s
  | CameraPermission granted => set_hasPermission granted s
  | Press t throws => press cfg throws t s
  | ActivationSettled i fulfilled throws => settle throws i fulfilled s
  | DecodeResult results =>
      foldr (fun _ s => onDecodeResult results s) s (listeners (native (core s)))
  | CodeScanned codes =>
      match render cfg s with
      | ScannerView Camera _ => onCodeScanned codes s
      | _ => s
      end
  end.

Definition run (cfg : Config) (evs : list Event) (s : State) : State :=
  foldl (fun s ev => step cfg ev s) s evs.

(** The cortex pipeline holds the camera, or decodes. *)
Definition cortexActive (s : State) : bool :=
  let n := native (core s) in
  cameraOn n || previewOn n || videoCapturing n || decoding n.

(** The vision camera is mounted with [isActive={true}]. *)
Definition visionActive (cfg : Config) (s : State) : bool :=
  match render cfg s with
  | ScannerView Camera _ => true
  | _ => false
  end.

End Live.

(** ** [src/unnamed/part_000]: idle, scanning, result *)
Module Lifecycle.

Inductive ScreenState : Type := idle | scanning | result_.

Record State : Type := {
  core : Core;
  state : ScreenState;
  scannerType : ScannerType;
  result : string;
  androidPermission : bool;
  hasPermission : bool;
  (** how many [startCortex] calls are suspended in [activateLicense] *)
  pending : nat;
  screenMounted : bool;
  (** this instance of the screen has been unmounted; [App] mounts one *)
  unmounted : bool;
  (** rejections of the [onPress] of the start button, which nothing handles *)
  unhandled : list Error
}.

Definition missingKeyMessage : string := "Missing Cortex license key".

Definition init (cfg : Config) (hasPermission0 : bool) : State :=
  {| core := core0; state := idle; scannerType := cortex; result := "";
     androidPermission := negb (platformIsAndroid cfg);
     hasPermission := hasPermission0; pending := 0;
     screenMounted := false; unmounted := false; unhandled := [] |}.

Definition set_core (c : Core) (s : State) : State :=
  {| core := c; state := state s; scannerType := scannerType s;
     result := result s; androidPermission := androidPermission s;
     hasPermission := hasPermission s; pending := pending s;
     screenMounted := screenMounted s;
     unmounted := unmounted s; unhandled := unhandled s |}.

Definition setState (x : ScreenState) (s : State) : State :=
  {| core := core s; state := x; scannerType := scannerType s;
     result := result s; androidPermission := androidPermission s;
     hasPermission := hasPermission s; pending := pending s;
     screenMounted := screenMounted s;
     unmounted := unmounted s; unhandled := unhandled s |}.

Definition setScannerType (t : ScannerType) (s : State) : State :=
  {| core := core s; state := state s; scannerType := t;
     result := result s; androidPermission := androidPermission s;
     hasPermission := hasPermission s; pending := pending s;
     screenMounted := screenMounted s;
     unmounted := unmounted s; unhandled := unhandled s |}.

Definition setResult (r : string) (s : State) : State :=
  {| core := core s; state := state s; scannerType := scannerType s;
     result := r; androidPermission := androidPermission s;
     hasPermission := hasPermission s; pending := pending s;
     screenMounted := screenMounted s;
     unmounted := unmounted s; unhandled := unhandled s |}.

Definition setAndroidPermission (b : bool) (s : State) : State :=
  {| core := core s; state := state s; scannerType := scannerType s;
     result := result s; androidPermission := b;
     hasPermission := hasPermission s; pending := pending s;
     screenMounted := screenMounted s;
     unmounted := unmounted s; unhandled := unhandled s |}.

Definition set_hasPermission (b : bool) (s : State) : State :=
  {| core := core s; state := state s; scannerType := scannerType s;
     result := result s; androidPermission := androidPermission s;
     hasPermission := b; pending := pending s;
     screenMounted := screenMounted s;
     unmounted := unmounted s; unhandled := unhandled s |}.

Definition set_pending (p : nat) (s : State) : State :=
  {| core := core s; state := state s; scannerType := scannerType s;
     result := result s; androidPermission := androidPermission s;
     hasPermission := hasPermission s; pending := p;
     screenMounted := screenMounted s;
     unmounted := unmounted s; unhandled := unhandled s |}.

(** Mounting ([true]) and unmounting ([false]) the instance. *)
Definition set_screenMounted (b : bool) (s : State) : State :=
  {| core := core s; state := state s; scannerType := scannerType s;
     result := result s; androidPermission := androidPermission s;
     hasPermission := hasPermission s; pending := pending s;
     screenMounted := b; unmounted := negb b; unhandled := unhandled s |}.

Definition reject (e : Error) (s : State) : State :=
  {| core := core s; state := state s; scannerType := scannerType s;
     result := result s; androidPermission := androidPermission s;
     hasPermission := hasPermission s; pending := pending s;
     screenMounted := screenMounted s;
     unmounted := unmounted s; unhandled := e :: unhandled s |}.

Inductive CameraElement : Type := CDCameraView | Camera | NoCamera.

Inductive Rendered : Type :=
  | NotMounted
  | PermissionMessage
  | IdleView
  | ScanningView (camera : CameraElement)
  | ResultView (text : string).

Definition render (cfg : Config) (s : State) : Rendered :=
  if negb (screenMounted s) then NotMounted
  else if negb (androidPermission s) || negb (hasPermission s) then PermissionMessage
  else
    match state s with
    | idle => IdleView
    | scanning =>
        ScanningView
          (match scannerType s with
           | cortex => CDCameraView
           | vision => if backDevice cfg then Camera else NoCamera
           end)
    | result_ => ResultView (result s)
    end.

Section Handlers.

Variable cfg : Config.
Variable throws : Faults.

Definition stopAll (s : State) : State :=
  set_core (stopAllCameras throws (core s)).2 s.

(** [onCodeScanned]: [if (codes[0]?.value)] holds for a non-empty text. *)
Definition onCodeScanned (codes : list Code) (s : State) : State :=
  match codes with
  | {| value := Some v |} :: _ =>
      if decide (v = "") then s else setState result_ (setResult v s)
  | _ => s
  end.

(** The listener given to [CDDecoder.addListener]. *)
Definition onDecodeResult (results : option (list CDResult)) (s : State) : State :=
  match firstResult results with
  | Some r =>
      if decide (status r = success)
      then setState result_ (stopAll (setResult (barcodeData r) s))
      else s
  | None => s
  end.

(** [onPress] of the start button. *)
Definition pressStart (s : State) : State :=
  let s := setState scanning (setResult "" s) in
  match scannerType s with
  | cortex =>
      match startCortex_begin cfg missingKeyMessage throws (core s) with
      | (Returned Completed, c) => set_core c s
      | (Returned AwaitingActivation, c) =>
          set_pending (S (pending s)) (set_core c s)
      | (Thrown err, c) => reject err (set_core c s)
      end
  | vision => s
  end.

(** [onPress] of the close button. *)
Definition pressClose (s : State) : State := setState idle (stopAll s).

(** [activateLicense] of a suspended [startCortex] settles. *)
Definition settle (fulfilled : bool) (s : State) : State :=
  match pending s with
  | S p =>
      let s := set_pending p s in
      match startCortex_resume throws fulfilled (core s) with
      | (Returned _, c) => set_core c s
      | (Thrown err, c) => reject err (set_core c s)
      end
  | O => s
  end.

End Handlers.

Inductive Event : Type :=
  | Mount
  | Unmount (throws : Faults)
  | AndroidPermissionResult (granted : bool)
  | CameraPermission (granted : bool)
  | SelectType (t : ScannerType)
  | PressStart (throws : Faults)
  | PressClose (throws : Faults)
  | PressReset
  | ActivationSettled (fulfilled : bool) (throws : Faults)
  | DecodeResult (results : option (list CDResult)) (throws : Faults)
  | CodeScanned (codes : list Code).

Definition step (cfg : Config) (ev : Event) (s : State) : State :=
  match ev with
  | Mount =>
      if screenMounted s || unmounted s then s else set_screenMounted true s
  | Unmount throws =>
      if screenMounted s then set_screenMounted false (stopAll throws s) else s
  | AndroidPermissionResult granted =>
      if platformIsAndroid cfg then setAndroidPermission granted s else s
  | CameraPermission granted => set_hasPermission granted s
  | SelectType t =>
      match render cfg s with
      | IdleView => setScannerType t s
      | _ => s
      end
  | PressStart throws =>
      match render cfg s with
      | IdleView => pressStart cfg throws s
      | _ => s
      end
  | PressClose throws =>
      match render cfg s with
      | ScanningView _ => pressClose throws s
      | _ => s
      end
  | PressReset =>
      match render cfg s with
      | ResultView _ => setState idle s
      | _ => s
      end
  | ActivationSettled fulfilled throws => settle throws fulfilled s
  | DecodeResult results throws =>
      foldr (fun _ s => onDecodeResult throws results s) s
        (listeners (native (core s)))
  | CodeScanned codes =>
      match render cfg s with
      | ScanningView Camera => onCodeScanned codes s
      | _ => s
      end
  end.

Definition run (cfg : Config) (evs : list Event) (s : State) : State :=
  foldl (fun s ev => step cfg ev s) s evs.

End Lifecycle.

(** ** Vocabulary of the properties *)

(** The calls of the teardown sequence of [stopAllCameras]. *)
Definition teardownCall (c : SdkCall) : bool :=
  match c with
  | SetDecoding false | SetVideoCapturing false | StopPreview | StopCamera => true
  | _ => false
  end.

Definition activationCall (c : SdkCall) : bool :=
  match c with
  | ActivateLicense _ => true
  | _ => false
  end.

(** How often [CDLicense.activateLicense] has been called. *)
Definition activationCalls (c : Core) : nat :=
  length (filter (fun x => activationCall x = true) (calls (native c))).

(** The listeners attached to the emitter are exactly the one whose handle
    [subscriptionRef] holds, if it holds one. *)
Definition subscription_owned (c : Core) : Prop :=
  listeners (native c) =
    match subscriptionRef c with
    | Some h => [h]
    | None => []
    end.

(** Without a license key the flag is never set and nothing but the
    teardown sequence reaches the SDK. *)
Definition never_started (c : Core) : Prop :=
  licenseActivatedRef c = false
  ∧ Forall (fun x => teardownCall x = true) (calls (native c)).



(** [n] invocations of [ensureLicenseActivated], each awaited before the
    next begins, with their outcomes. *)
Fixpoint invocations (cfg : Config) (msg : string) (throws : Faults)
    (fulfilled : bool) (n : nat) (c : Core) : list (Outcome unit) * Core :=
  match n with
  | O => ([], c)
  | S n' =>
      let (o, c1) := ensureLicenseActivated cfg msg throws fulfilled c in
      let (os, c2) := invocations cfg msg throws fulfilled n' c1 in
      (o :: os, c2)
  end.

(** A configuration with the license key, on a platform without the
    runtime permission request. *)
Definition cfgKey : Config :=
  {| EXPO_PUBLIC_CORTEX_CUSTOMER_ID := None;
     EXPO_PUBLIC_CORTEX_LICENSE_KEY := Some "KEY";
     platformIsAndroid := false; backDevice := true |}.

(** The same on Android, where the permission starts out not granted. *)
Definition cfgAndroid : Config :=
  {| EXPO_PUBLIC_CORTEX_CUSTOMER_ID := None;
     EXPO_PUBLIC_CORTEX_LICENSE_KEY := Some "KEY";
     platformIsAndroid := true; backDevice := true |}.

(** A configuration without the license key. *)
Definition cfgNoKey : Config :=
  {| EXPO_PUBLIC_CORTEX_CUSTOMER_ID := Some "ACME";
     EXPO_PUBLIC_CORTEX_LICENSE_KEY := None;
     platformIsAndroid := false; backDevice := true |}.

(** A configuration whose license key is the empty text. *)
Definition cfgEmptyKey : Config :=
  {| EXPO_PUBLIC_CORTEX_CUSTOMER_ID := None;
     EXPO_PUBLIC_CORTEX_LICENSE_KEY := Some "";
     platformIsAndroid := false; backDevice := true |}.

(** The SDK calls of [stopAllCameras] and of [startCortex], in the order
    of the source. *)
Definition teardownSequence : list SdkCall :=
  [SetDecoding false; SetVideoCapturing false; StopPreview; StopCamera].

Definition startSequence : list SdkCall :=
  [StartCamera; StartPreview; SetVideoCapturing true; SetDecoding true].

(** The calls of a sequence that are issued when the statements run one
    after the other and the first call that throws ends the run. *)
Fixpoint issued (throws : Faults) (l : list SdkCall) : list SdkCall :=
  match l with
  | [] => []
  | c :: l' => if throws c then [c] else c :: issued throws l'
  end.

(** The fault in which exactly the call [x] throws. *)
Definition throwsOn (x : SdkCall) : Faults := fun c => bool_decide (c = x).

(** A call as the configuration allows it: the customer id is the
    configured one or the default, the license key is the configured one
    and is not empty. *)
Definition configuredCall (cfg : Config) (c : SdkCall) : Prop :=
  match c with
  | SetCustomerId id =>
      id = default "ReplaceExpirationLib" (EXPO_PUBLIC_CORTEX_CUSTOMER_ID cfg)
  | ActivateLicense k =>
      EXPO_PUBLIC_CORTEX_LICENSE_KEY cfg = Some k ∧ k ≠ ""
  | _ => True
  end.

Definition configuredCalls (cfg : Config) (c : Core) : Prop :=
  Forall (configuredCall cfg) (calls (native c))
  ∧ (customerId (native c) = None
     ∨ customerId (native c)
       = Some (default "ReplaceExpirationLib" (EXPO_PUBLIC_CORTEX_CUSTOMER_ID cfg))).

(** The bookkeeping of the [mounted] variables of the live screen: the
    variable of the run whose cleanup is registered is the only one that
    is true, no run is registered before the screen is mounted, and every
    suspended start belongs to a run that has happened. *)
Definition mounted_consistent (s : Live.State) : Prop :=
  (∀ e, Live.mounted s !! e = Some true ↔ Live.effect s = Some e)
  ∧ (Live.screenMounted s = false → Live.effect s = None)
  ∧ Forall (fun e => (e < length (Live.mounted s))%nat) (Live.pending s).

(** The calls that switch the cortex pipeline on. *)
Definition startCall (c : SdkCall) : bool :=
  match c with
  | StartCamera | StartPreview | SetVideoCapturing true | SetDecoding true => true
  | _ => false
  end.

(** How many of them have been issued. *)
Definition startCalls (c : Core) : nat :=
  length (filter (fun x => startCall x = true) (calls (native c))).

(** The permission is not granted (one of the two grants is missing) in
    the state [s] and after each of the events [evs]. *)
Fixpoint live_denied_throughout (cfg : Config) (evs : list Live.Event)
    (s : Live.State) : Prop :=
  Live.androidPermission s && Live.hasPermission s = false
  ∧ match evs with
    | [] => True
    | ev :: evs' => live_denied_throughout cfg evs' (Live.step cfg ev s)
    end.

Fixpoint lifecycle_denied_throughout (cfg : Config) (evs : list Lifecycle.Event)
    (l : Lifecycle.State) : Prop :=
  Lifecycle.androidPermission l && Lifecycle.hasPermission l = false
  ∧ match evs with
    | [] => True
    | ev :: evs' => lifecycle_denied_throughout cfg evs' (Lifecycle.step cfg ev l)
    end.

(** The live screen has run its effect at most once, at mount, and the
    only start is the one of that run: at most one activation, and the
    start calls are issued only once the one suspended start resumes. *)
Definition mount_start_only (s : Live.State) : Prop :=
  Live.scannerType s = cortex
  ∧ (length (Live.mounted s) ≤ 1)%nat
  ∧ (4 * length (Live.pending s) + startCalls (Live.core s) ≤ 4)%nat
  ∧ (activationCalls (Live.core s) ≤ 1)%nat
  ∧ (Live.screenMounted s = false → Live.unmounted s = false →
     Live.mounted s = [] ∧ Live.pending s = []
     ∧ licenseActivatedRef (Live.core s) = false
     ∧ activationCalls (Live.core s) = 0%nat
     ∧ startCalls (Live.core s) = 0%nat).

(** An event of the decoder or the settlement of an activation. *)
Definition decodeOrSettlement (ev : Lifecycle.Event) : Prop :=
  match ev with
  | Lifecycle.DecodeResult _ _ | Lifecycle.ActivationSettled _ _ => True
  | _ => False
  end.

(** ** The synchronous stretches *)

Ltac sync_unfold :=
  unfold stopAllCameras, startCortex, startCortex_begin, startCortex_resume,
    startCortex_afterLicense, ensureLicenseActivated,
    ensureLicenseActivated_begin, ensureLicenseActivated_resume, subscribe,
    activateLicense, sdk, try_catch, bind, ret, throw in *.

Ltac sync_cases :=
  sync_unfold; simpl in *;
  repeat (case_match; simpl in *; simplify_eq; try done).


Lemma stopAllCameras_refs throws c :
  subscriptionRef (stopAllCameras throws c).2 = None
  ∧ licenseActivatedRef (stopAllCameras throws c).2 = licenseActivatedRef c.
Proof. sync_cases. Qed.

Lemma stopAllCameras_listeners throws c :
  listeners (native (stopAllCameras throws c).2) =
    match subscriptionRef c with
    | Some h => filter (fun h' => h' ≠ h) (listeners (native c))
    | None => listeners (native c)
    end.
Proof. sync_cases. Qed.

Lemma stopAllCameras_owned throws c :
  subscription_owned c →
  subscription_owned (stopAllCameras throws c).2
  ∧ listeners (native (stopAllCameras throws c).2) = [].
Proof.
  intros Hc. unfold subscription_owned in *.
  rewrite stopAllCameras_listeners, (proj1 (stopAllCameras_refs throws c)), Hc.
  destruct (subscriptionRef c) as [h|]; [|done].
  rewrite filter_cons, filter_nil. by case_decide.
Qed.

Lemma startCortex_afterLicense_owned throws c :
  subscription_owned c →
  subscription_owned (startCortex_afterLicense throws c).2.
Proof.
  unfold subscription_owned. intros Hc.
  sync_cases; rewrite ?Hc; done.
Qed.

Lemma startCortex_begin_owned cfg msg throws c :
  subscription_owned c →
  subscription_owned (startCortex_begin cfg msg throws c).2.
Proof.
  unfold subscription_owned. intros Hc.
  sync_cases; rewrite ?Hc; done.
Qed.

Lemma startCortex_resume_owned throws fulfilled c :
  subscription_owned c →
  subscription_owned (startCortex_resume throws fulfilled c).2.
Proof.
  unfold subscription_owned. intros Hc.
  sync_cases; rewrite ?Hc; done.
Qed.

Lemma foldr_preserves {A S} (P : S → Prop) (f : S → S) (l : list A) (s : S) :
  (∀ x, P x → P (f x)) → P s → P (foldr (fun _ x => f x) s l).
Proof. intros Hf Hs. induction l as [|a l IH]; simpl; auto. Qed.

Lemma stopAllCameras_never_started throws c :
  never_started c → never_started (stopAllCameras throws c).2.
Proof.
  unfold never_started. intros [Hf Hc].
  split; [by rewrite (proj2 (stopAllCameras_refs throws c))|].
  sync_cases; repeat (apply Forall_cons; split; [done|]); done.
Qed.

Lemma startCortex_begin_missing_key cfg msg throws c :
  EXPO_PUBLIC_CORTEX_LICENSE_KEY cfg = None →
  licenseActivatedRef c = false →
  startCortex_begin cfg msg throws c = (Thrown (MissingCredential msg), c).
Proof. intros Hk Hf. sync_unfold. by rewrite Hf, Hk. Qed.

(** ** The live screen: invariants of its runs *)

Lemma live_step_owned cfg ev s :
  subscription_owned (Live.core s) →
  subscription_owned (Live.core (Live.step cfg ev s)).
Proof.
  intros Hs. destruct ev; simpl.
  - destruct (Live.screenMounted s); simpl; [done|].
    destruct (Live.unmounted s); simpl; [done|].
    unfold Live.runEffect, Live.start, Live.stopAllCameras. simpl.
    pose proof (stopAllCameras_owned throws (Live.core s) Hs) as [Ho _].
    pose proof (startCortex_begin_owned cfg Live.missingKeyMessage throws _ Ho) as Hb.
    repeat (case_match; simpl in *; simplify_eq; try done).
  - destruct (Live.screenMounted s); [|done].
    unfold Live.cleanup, Live.stopAllCameras. simpl.
    destruct (Live.effect s); simpl; [|done].
    by apply stopAllCameras_owned.
  - by destruct (platformIsAndroid cfg).
  - done.
  - unfold Live.press. destruct (Live.buttonsShown s); [|done].
    case_bool_decide; [|done].
    unfold Live.runEffect, Live.start, Live.cleanup, Live.stopAllCameras. simpl.
    set (c1 := match Live.effect s with
               | Some _ => (stopAllCameras throws (Live.core s)).2
               | None => Live.core s
               end).
    assert (subscription_owned c1) as H1.
    { subst c1. destruct (Live.effect s); [by apply stopAllCameras_owned|done]. }
    destruct (Live.effect s) eqn:He; simpl;
      fold c1;
      pose proof (stopAllCameras_owned throws c1 H1) as [Ho _];
      pose proof (startCortex_begin_owned cfg Live.missingKeyMessage throws _ Ho) as Hb;
      repeat (case_match; simpl in *; simplify_eq; try done).
  - unfold Live.settle. destruct (Live.pending s !! i); [|done]. simpl.
    pose proof (startCortex_resume_owned throws fulfilled _ Hs) as Hr.
    repeat (case_match; simpl in *; simplify_eq; try done).
  - apply (foldr_preserves (fun x => subscription_owned (Live.core x))); [|done].
    intros x Hx. unfold Live.onDecodeResult.
    repeat (case_match; simpl in *; simplify_eq; try done).
  - unfold Live.onCodeScanned.
    repeat (case_match; simpl in *; simplify_eq; try done).
Qed.

Lemma live_run_owned cfg evs s :
  subscription_owned (Live.core s) →
  subscription_owned (Live.core (Live.run cfg evs s)).
Proof.
  revert s. induction evs as [|ev evs IH]; intros s Hs; simpl; [done|].
  apply IH. by apply live_step_owned.
Qed.

Lemma live_step_never_started cfg ev s :
  EXPO_PUBLIC_CORTEX_LICENSE_KEY cfg = None →
  never_started (Live.core s) ∧ Live.pending s = [] →
  never_started (Live.core (Live.step cfg ev s))
  ∧ Live.pending (Live.step cfg ev s) = [].
Proof.
  intros Hk [Hs Hp]. destruct ev; simpl.
  - destruct (Live.screenMounted s); simpl; [done|].
    destruct (Live.unmounted s); simpl; [done|].
    unfold Live.runEffect, Live.start, Live.stopAllCameras. simpl.
    pose proof (stopAllCameras_never_started throws _ Hs) as Ho.
    pose proof (startCortex_begin_missing_key cfg Live.missingKeyMessage throws _
                  Hk (proj1 Ho)) as Hb.
    repeat (case_match; simpl in *; simplify_eq; try done).
  - destruct (Live.screenMounted s); [|done].
    unfold Live.cleanup, Live.stopAllCameras. simpl.
    destruct (Live.effect s); simpl; [|done].
    split; [|done]. by apply stopAllCameras_never_started.
  - by destruct (platformIsAndroid cfg).
  - done.
  - unfold Live.press. destruct (Live.buttonsShown s); [|done].
    case_bool_decide; [|done].
    unfold Live.runEffect, Live.start, Live.cleanup, Live.stopAllCameras. simpl.
    set (c1 := match Live.effect s with
               | Some _ => (stopAllCameras throws (Live.core s)).2
               | None => Live.core s
               end).
    assert (never_started c1) as H1.
    { subst c1. destruct (Live.effect s); [by apply stopAllCameras_never_started|done]. }
    destruct (Live.effect s) eqn:He; simpl;
      fold c1;
      pose proof (stopAllCameras_never_started throws c1 H1) as Ho;
      pose proof (startCortex_begin_missing_key cfg Live.missingKeyMessage throws _
                    Hk (proj1 Ho)) as Hb;
      repeat (case_match; simpl in *; simplify_eq; try done).
  - unfold Live.settle. by rewrite Hp.
  - split.
    + apply (foldr_preserves (fun x => never_started (Live.core x))); [|done].
      intros x Hx. unfold Live.onDecodeResult.
      repeat (case_match; simpl in *; simplify_eq; try done).
    + apply (foldr_preserves (fun x => Live.pending x = [])); [|done].
      intros x Hx. unfold Live.onDecodeResult.
      repeat (case_match; simpl in *; simplify_eq; try done).
  - unfold Live.onCodeScanned.
    repeat (case_match; simpl in *; simplify_eq; try done).
Qed.

Lemma live_run_never_started cfg evs s :
  EXPO_PUBLIC_CORTEX_LICENSE_KEY cfg = None →
  never_started (Live.core s) ∧ Live.pending s = [] →
  never_started (Live.core (Live.run cfg evs s))
  ∧ Live.pending (Live.run cfg evs s) = [].
Proof.
  intros Hk. revert s. induction evs as [|ev evs IH]; intros s Hs; simpl; [done|].
  apply IH. by apply live_step_never_started.
Qed.

(** ** The screen with the explicit lifecycle: invariants of its runs *)

Lemma lifecycle_onDecodeResult_core throws results s :
  Lifecycle.core (Lifecycle.onDecodeResult throws results s) = Lifecycle.core s
  ∨ Lifecycle.core (Lifecycle.onDecodeResult throws results s)
    = (stopAllCameras throws (Lifecycle.core s)).2.
Proof.
  unfold Lifecycle.onDecodeResult, Lifecycle.stopAll.
  repeat (case_match; simpl in *; simplify_eq; auto).
Qed.

Lemma lifecycle_step_owned cfg ev s :
  subscription_owned (Lifecycle.core s) →
  subscription_owned (Lifecycle.core (Lifecycle.step cfg ev s)).
Proof.
  intros Hs. destruct ev; simpl.
  - by destruct (Lifecycle.screenMounted s), (Lifecycle.unmounted s).
  - destruct (Lifecycle.screenMounted s); [|done].
    simpl. by apply stopAllCameras_owned.
  - by destruct (platformIsAndroid cfg).
  - done.
  - by destruct (Lifecycle.render cfg s).
  - destruct (Lifecycle.render cfg s); try done.
    unfold Lifecycle.pressStart. simpl.
    pose proof (startCortex_begin_owned cfg Lifecycle.missingKeyMessage throws _ Hs) as Hb.
    repeat (case_match; simpl in *; simplify_eq; try done).
  - destruct (Lifecycle.render cfg s); try done.
    simpl. by apply stopAllCameras_owned.
  - by destruct (Lifecycle.render cfg s).
  - unfold Lifecycle.settle. destruct (Lifecycle.pending s); [done|]. simpl.
    pose proof (startCortex_resume_owned throws fulfilled _ Hs) as Hr.
    repeat (case_match; simpl in *; simplify_eq; try done).
  - apply (foldr_preserves (fun x => subscription_owned (Lifecycle.core x))); [|done].
    intros x Hx.
    destruct (lifecycle_onDecodeResult_core throws results x) as [-> | ->]; [done|].
    by apply stopAllCameras_owned.
  - destruct (Lifecycle.render cfg s) as [| | |[]|]; try done.
    unfold Lifecycle.onCodeScanned.
    repeat (case_match; simpl in *; simplify_eq; try done).
Qed.

Lemma lifecycle_run_owned cfg evs s :
  subscription_owned (Lifecycle.core s) →
  subscription_owned (Lifecycle.core (Lifecycle.run cfg evs s)).
Proof.
  revert s. induction evs as [|ev evs IH]; intros s Hs; simpl; [done|].
  apply IH. by apply lifecycle_step_owned.
Qed.

Lemma lifecycle_step_never_started cfg ev s :
  EXPO_PUBLIC_CORTEX_LICENSE_KEY cfg = None →
  never_started (Lifecycle.core s) ∧ Lifecycle.pending s = 0 →
  never_started (Lifecycle.core (Lifecycle.step cfg ev s))
  ∧ Lifecycle.pending (Lifecycle.step cfg ev s) = 0.
Proof.
  intros Hk [Hs Hp]. destruct ev; simpl.
  - by destruct (Lifecycle.screenMounted s), (Lifecycle.unmounted s).
  - destruct (Lifecycle.screenMounted s); [|done].
    simpl. split; [|done]. by apply stopAllCameras_never_started.
  - by destruct (platformIsAndroid cfg).
  - done.
  - by destruct (Lifecycle.render cfg s).
  - destruct (Lifecycle.render cfg s); try done.
    unfold Lifecycle.pressStart. simpl.
    pose proof (startCortex_begin_missing_key cfg Lifecycle.missingKeyMessage throws _
                  Hk (proj1 Hs)) as Hb.
    repeat (case_match; simpl in *; simplify_eq; try done).
  - destruct (Lifecycle.render cfg s); try done.
    simpl. split; [|done]. by apply stopAllCameras_never_started.
  - by destruct (Lifecycle.render cfg s).
  - unfold Lifecycle.settle. by rewrite Hp.
  - apply (foldr_preserves
             (fun x => never_started (Lifecycle.core x) ∧ Lifecycle.pending x = 0));
      [|done].
    intros x [Hx Hpx]. split.
    + destruct (lifecycle_onDecodeResult_core throws results x) as [-> | ->]; [done|].
      by apply stopAllCameras_never_started.
    + unfold Lifecycle.onDecodeResult.
      repeat (case_match; simpl in *; simplify_eq; try done).
  - destruct (Lifecycle.render cfg s) as [| | |[]|]; try done.
    unfold Lifecycle.onCodeScanned.
    repeat (case_match; simpl in *; simplify_eq; try done).
Qed.

Lemma lifecycle_run_never_started cfg evs s :
  EXPO_PUBLIC_CORTEX_LICENSE_KEY cfg = None →
  never_started (Lifecycle.core s) ∧ Lifecycle.pending s = 0 →
  never_started (Lifecycle.core (Lifecycle.run cfg evs s))
  ∧ Lifecycle.pending (Lifecycle.run cfg evs s) = 0.
Proof.
  intros Hk. revert s. induction evs as [|ev evs IH]; intros s Hs; simpl; [done|].
  apply IH. by apply lifecycle_step_never_started.
Qed.

(** ** The license gate *)

Lemma ensureLicenseActivated_activated cfg msg throws fulfilled c :
  licenseActivatedRef c = true →
  ensureLicenseActivated cfg msg throws fulfilled c = (Returned (), c).
Proof. intros Hf. sync_unfold. by rewrite Hf. Qed.

Lemma invocations_activated cfg msg throws fulfilled n c :
  licenseActivatedRef c = true →
  invocations cfg msg throws fulfilled n c = (replicate n (Returned ()), c).
Proof.
  intros Hf. induction n as [|n IH]; simpl; [done|].
  by rewrite ensureLicenseActivated_activated, IH.
Qed.

Lemma ensureLicenseActivated_first cfg msg throws k c :
  EXPO_PUBLIC_CORTEX_LICENSE_KEY cfg = Some k → k ≠ "" →
  throws (SetCustomerId
            (default "ReplaceExpirationLib" (EXPO_PUBLIC_CORTEX_CUSTOMER_ID cfg)))
    = false →
  licenseActivatedRef c = false →
  ∃ c', ensureLicenseActivated cfg msg throws true c = (Returned (), c')
        ∧ licenseActivatedRef c' = true
        ∧ activationCalls c' = S (activationCalls c).
Proof.
  intros Hk Hne Ht Hf. sync_unfold. rewrite Hf, Hk.
  destruct (decide (k = "")) as [|_]; [done|]. simpl. rewrite Ht. simpl.
  eexists. split; [done|]. split; [done|].
  unfold activationCalls. simpl. by rewrite filter_cons_False by done.
Qed.

(** C3 (as amended).  With a license key present and an activation that
    succeeds, N >= 1 invocations of [ensureLicenseActivated], each awaited
    before the next begins, all return normally and call
    [CDLicense.activateLicense] exactly once between them; and once
    [licenseActivatedRef] is true an invocation returns at once, leaving the
    refs, the native side and the log of calls as they were. *)
Theorem sequential_invocations_activate_once
    (cfg : Config) (msg : string) (throws : Faults) (k : string) (N : nat) (c : Core) :
  EXPO_PUBLIC_CORTEX_LICENSE_KEY cfg = Some k → k ≠ "" →
  throws (SetCustomerId
            (default "ReplaceExpirationLib" (EXPO_PUBLIC_CORTEX_CUSTOMER_ID cfg)))
    = false →
  licenseActivatedRef c = false →
  (1 ≤ N)%nat →
  (invocations cfg msg throws true N c).1 = replicate N (Returned ())
  ∧ activationCalls (invocations cfg msg throws true N c).2 = S (activationCalls c)
  ∧ licenseActivatedRef (invocations cfg msg throws true N c).2 = true
  ∧ (∀ fulfilled c',
       licenseActivatedRef c' = true →
       ensureLicenseActivated cfg msg throws fulfilled c' = (Returned (), c')).
Proof.
  intros Hk Hne Ht Hf HN.
  destruct N as [|n]; [lia|]. simpl.
  destruct (ensureLicenseActivated_first cfg msg throws k c Hk Hne Ht Hf)
    as (c' & -> & Hf' & Hcalls).
  rewrite (invocations_activated cfg msg throws true n c' Hf'). simpl.
  repeat split; try done.
  intros fulfilled c'' Hc''. by apply ensureLicenseActivated_activated.
Qed.

Lemma three_awaited_invocations :
  (invocations cfgKey Live.missingKeyMessage noFault true 3 core0).1
    = replicate 3 (Returned ())
  ∧ activationCalls (invocations cfgKey Live.missingKeyMessage noFault true 3 core0).2
    = S (activationCalls core0).
Proof.
  assert ("KEY" ≠ "") as Hne by (intros H; discriminate H).
  assert (1 ≤ 3)%nat as HN by lia.
  destruct (sequential_invocations_activate_once cfgKey Live.missingKeyMessage
              noFault "KEY" 3 core0 eq_refl Hne eq_refl eq_refl HN)
    as (H1 & H2 & _).
  exact (conj H1 H2).
Defined.

(** Two invocations that overlap: the screen is mounted with cortex
    selected, the user switches to vision and back before the first
    activation has settled, then both activations succeed. *)
Lemma overlapping_invocations_activate_twice :
  let s := Live.run cfgKey
             [Live.Mount noFault; Live.Press vision noFault;
              Live.Press cortex noFault;
              Live.ActivationSettled 0 true noFault;
              Live.ActivationSettled 0 true noFault]
             (Live.init cfgKey true) in
  Live.unhandled s = []
  ∧ licenseActivatedRef (Live.core s) = true
  ∧ activationCalls (Live.core s) = 2
  ∧ ¬ (activationCalls (Live.core s) ≤ 1)%nat.
Proof. vm_compute. repeat split. lia. Qed.

(** C4.  Without a license key in the configuration, in every state the
    live screen or the screen with the explicit lifecycle can reach, an
    attempt to start cortex throws the missing-key error at once, before
    any call to the SDK: the refs, the native side and the log of calls
    are as before the attempt, and no activation, camera-start,
    preview-start, capture-enable or decoding-enable call has ever been
    issued. *)
Theorem missing_license_key_blocks_cortex_start (cfg : Config) :
  EXPO_PUBLIC_CORTEX_LICENSE_KEY cfg = None →
  (∀ hasPermission0 evs throws,
     let c := Live.core (Live.run cfg evs (Live.init cfg hasPermission0)) in
     startCortex_begin cfg Live.missingKeyMessage throws c
       = (Thrown (MissingCredential Live.missingKeyMessage), c)
     ∧ Forall (fun x => teardownCall x = true) (calls (native c)))
  ∧ (∀ hasPermission0 evs throws,
       let c := Lifecycle.core (Lifecycle.run cfg evs (Lifecycle.init cfg hasPermission0)) in
       startCortex_begin cfg Lifecycle.missingKeyMessage throws c
         = (Thrown (MissingCredential Lifecycle.missingKeyMessage), c)
       ∧ Forall (fun x => teardownCall x = true) (calls (native c))).
Proof.
  intros Hk. split; intros hp evs throws c.
  - destruct (live_run_never_started cfg evs (Live.init cfg hp) Hk) as [[Hf Hc] _].
    { repeat split. simpl. constructor. }
    split; [|done]. by apply startCortex_begin_missing_key.
  - destruct (lifecycle_run_never_started cfg evs (Lifecycle.init cfg hp) Hk)
      as [[Hf Hc] _].
    { repeat split. simpl. constructor. }
    split; [|done]. by apply startCortex_begin_missing_key.
Qed.

Lemma no_key_run_example :
  EXPO_PUBLIC_CORTEX_LICENSE_KEY cfgNoKey = None
  ∧ (let c := Live.core (Live.run cfgNoKey
                           [Live.Mount noFault; Live.Press vision noFault;
                            Live.Press cortex noFault]
                           (Live.init cfgNoKey true)) in
     startCortex_begin cfgNoKey Live.missingKeyMessage noFault c
       = (Thrown (MissingCredential Live.missingKeyMessage), c)
     ∧ Forall (fun x => teardownCall x = true) (calls (native c))).
Proof.
  split; [reflexivity|].
  exact (proj1 (missing_license_key_blocks_cortex_start cfgNoKey eq_refl)
           true
           [Live.Mount noFault; Live.Press vision noFault; Live.Press cortex noFault]
           noFault).
Defined.

(** ** Teardown *)




(** ** Activation failure *)




(** ** Decode events *)

Lemma foldr_const_update {A S} (f : S → S) (l : list A) (s : S) :
  (∀ x, f (f x) = f x) →
  foldr (fun _ x => f x) s l = match l with [] => s | _ => f s end.
Proof.
  intros Hf. induction l as [|a l IH]; simpl; [done|].
  rewrite IH. by destruct l.
Qed.

Lemma live_DecodeResult_ignored cfg results s :
  Live.onDecodeResult results s = s →
  Live.step cfg (Live.DecodeResult results) s = s.
Proof.
  intros H. simpl.
  induction (listeners (native (Live.core s))) as [|a l IH]; simpl; [done|].
  by rewrite IH.
Qed.

(** C7 (as amended).  Of a batch only the first element is read.  The
    listener of the cortex decoder changes nothing when the batch is
    missing or empty or its first element has a status other than success;
    when the status is success it sets the displayed text to that element's
    [barcodeData], empty or not.  [onCodeScanned] of the vision camera
    changes nothing for an empty batch, and for any other batch sets the
    displayed text to the value of the first code, or to the empty text
    when that code has no value. *)
Theorem decode_batch_first_element_decides (cfg : Config) (s : Live.State) :
  (∀ r rest,
     Live.step cfg (Live.DecodeResult (Some (r :: rest))) s
     = Live.step cfg (Live.DecodeResult (Some [r])) s)
  ∧ (∀ c rest,
       Live.step cfg (Live.CodeScanned (c :: rest)) s
       = Live.step cfg (Live.CodeScanned [c]) s)
  ∧ Live.step cfg (Live.DecodeResult None) s = s
  ∧ Live.step cfg (Live.DecodeResult (Some [])) s = s
  ∧ (∀ code data rest,
       Live.step cfg
         (Live.DecodeResult
            (Some ({| status := notSuccess code; barcodeData := data |} :: rest))) s
       = s)
  ∧ (∀ data rest,
       Live.step cfg
         (Live.DecodeResult
            (Some ({| status := success; barcodeData := data |} :: rest))) s
       = match listeners (native (Live.core s)) with
         | [] => s
         | _ => Live.setLastResult data s
         end)
  ∧ Live.step cfg (Live.CodeScanned []) s = s
  ∧ (∀ c rest,
       Live.step cfg (Live.CodeScanned (c :: rest)) s
       = if Live.visionActive cfg s
         then Live.setLastResult (default "" (value c)) s
         else s).
Proof.
  split_and!.
  - intros r rest. simpl. f_equal.
  - intros c rest. simpl. by destruct (Live.render cfg s) as [| |[]].
  - by apply live_DecodeResult_ignored.
  - by apply live_DecodeResult_ignored.
  - intros code data rest. by apply live_DecodeResult_ignored.
  - intros data rest. simpl.
    change (fun (_ : nat) (s0 : Live.State) =>
              Live.onDecodeResult
                (Some ({| status := success; barcodeData := data |} :: rest)) s0)
      with (fun (_ : nat) (s0 : Live.State) => Live.setLastResult data s0).
    by rewrite (foldr_const_update (Live.setLastResult data)).
  - simpl. by destruct (Live.render cfg s) as [| |[]].
  - intros c rest. unfold Live.visionActive. simpl.
    by destruct (Live.render cfg s) as [| |[]].
Qed.

(** A batch whose first element has no value, or a success with an empty
    text, does change what is displayed: the result box disappears. *)
Lemma empty_first_element_clears_the_result :
  let s := Live.run cfgKey
             [Live.Mount noFault; Live.Press vision noFault;
              Live.CodeScanned [ {| value := Some "ABC" |} ]]
             (Live.init cfgKey true) in
  let s' := Live.run cfgKey
              [Live.Mount noFault; Live.ActivationSettled 0 true noFault;
               Live.DecodeResult (Some [ {| status := success; barcodeData := "ABC" |} ])]
              (Live.init cfgKey true) in
  Live.render cfgKey s = Live.ScannerView Live.Camera (Some "ABC")
  ∧ Live.render cfgKey (Live.step cfgKey (Live.CodeScanned [ {| value := None |} ]) s)
    = Live.ScannerView Live.Camera None
  ∧ Live.render cfgKey s' = Live.ScannerView Live.CDCameraView (Some "ABC")
  ∧ Live.render cfgKey
      (Live.step cfgKey
         (Live.DecodeResult (Some [ {| status := success; barcodeData := "" |} ])) s')
    = Live.ScannerView Live.CDCameraView None.
Proof. vm_compute. repeat split. Qed.

(** ** The subscription *)

Lemma live_step_effect_registered cfg ev s :
  (Live.screenMounted s = true → is_Some (Live.effect s)) →
  Live.screenMounted (Live.step cfg ev s) = true →
  is_Some (Live.effect (Live.step cfg ev s)).
Proof.
  intros Hs. destruct ev; simpl.
  - destruct (Live.screenMounted s) eqn:Hm; [auto|].
    destruct (Live.unmounted s) eqn:Hu; simpl; [by rewrite Hm|]. intros _.
    unfold Live.runEffect, Live.start, Live.stopAllCameras. simpl.
    repeat (case_match; simpl in *; simplify_eq; auto); by eexists.
  - destruct (Live.screenMounted s) eqn:Hm; simpl; [done|]. by rewrite Hm.
  - destruct (platformIsAndroid cfg); simpl; auto.
  - simpl. auto.
  - unfold Live.press. destruct (Live.buttonsShown s); [|auto].
    case_bool_decide; [|simpl; auto]. intros _.
    unfold Live.runEffect, Live.start, Live.cleanup, Live.stopAllCameras. simpl.
    repeat (case_match; simpl in *; simplify_eq; auto); by eexists.
  - unfold Live.settle. destruct (Live.pending s !! i); [|auto]. simpl.
    repeat (case_match; simpl in *; simplify_eq; auto); try by eexists.
  - apply (foldr_preserves
             (fun x => Live.screenMounted x = true → is_Some (Live.effect x)));
      [|done].
    intros x Hx. unfold Live.onDecodeResult.
    repeat (case_match; simpl in *; simplify_eq; auto); try by eexists.
  - unfold Live.onCodeScanned.
    repeat (case_match; simpl in *; simplify_eq; auto); try by eexists.
Qed.

Lemma live_run_effect_registered cfg evs s :
  (Live.screenMounted s = true → is_Some (Live.effect s)) →
  Live.screenMounted (Live.run cfg evs s) = true →
  is_Some (Live.effect (Live.run cfg evs s)).
Proof.
  revert s. induction evs as [|ev evs IH]; intros s Hs; simpl; [done|].
  apply IH. by apply live_step_effect_registered.
Qed.

(** X18.  In every state either screen can reach, whatever the order in
    which presses, settlements of the activation, decode events and SDK
    faults arrive, the listeners attached to the emitter are exactly the
    one whose handle [subscriptionRef] holds, so at most one; the
    subscribing step of [startCortex] changes nothing while the ref holds
    a handle; and right after the stop routine, and right after the
    unmount of a mounted screen, the ref is cleared and no listener is
    attached. *)
Theorem at_most_one_subscription
    (cfg : Config) (hasPermission0 : bool) (throws : Faults)
    (evs : list Live.Event) (evs' : list Lifecycle.Event) :
  let s := Live.run cfg evs (Live.init cfg hasPermission0) in
  let l := Lifecycle.run cfg evs' (Lifecycle.init cfg hasPermission0) in
  (subscription_owned (Live.core s)
   ∧ (length (listeners (native (Live.core s))) ≤ 1)%nat
   ∧ subscriptionRef (Live.core (Live.stopAllCameras throws s)) = None
   ∧ listeners (native (Live.core (Live.stopAllCameras throws s))) = []
   ∧ (Live.screenMounted s = true →
      subscriptionRef (Live.core (Live.step cfg (Live.Unmount throws) s)) = None
      ∧ listeners (native (Live.core (Live.step cfg (Live.Unmount throws) s))) = []))
  ∧ (subscription_owned (Lifecycle.core l)
     ∧ (length (listeners (native (Lifecycle.core l))) ≤ 1)%nat
     ∧ subscriptionRef (Lifecycle.core (Lifecycle.stopAll throws l)) = None
     ∧ listeners (native (Lifecycle.core (Lifecycle.stopAll throws l))) = []
     ∧ (Lifecycle.screenMounted l = true →
        subscriptionRef (Lifecycle.core (Lifecycle.step cfg (Lifecycle.Unmount throws) l))
          = None
        ∧ listeners
            (native (Lifecycle.core (Lifecycle.step cfg (Lifecycle.Unmount throws) l)))
          = []))
  ∧ (∀ c h, subscriptionRef c = Some h → subscribe c = (Returned (), c)).
Proof.
  intros s l.
  assert (subscription_owned (Live.core s)) as Hs
    by (by apply live_run_owned).
  assert (subscription_owned (Lifecycle.core l)) as Hl
    by (by apply lifecycle_run_owned).
  assert (∀ c, subscription_owned c → (length (listeners (native c)) ≤ 1)%nat) as Hlen.
  { intros c Hc. rewrite Hc. destruct (subscriptionRef c); simpl; lia. }
  split_and!; auto.
  - apply stopAllCameras_refs.
  - by apply stopAllCameras_owned.
  - intros Hm. simpl. rewrite Hm. simpl.
    destruct (live_run_effect_registered cfg evs (Live.init cfg hasPermission0))
      as [e He]; [done|exact Hm|].
    fold s in He. unfold Live.cleanup. rewrite He. simpl.
    split; [apply stopAllCameras_refs|by apply stopAllCameras_owned].
  - apply stopAllCameras_refs.
  - by apply stopAllCameras_owned.
  - intros Hm. simpl. rewrite Hm. simpl.
    split; [apply stopAllCameras_refs|by apply stopAllCameras_owned].
  - intros c h Hc. unfold subscribe. by rewrite Hc.
Qed.

Lemma subscription_run_example :
  let s := Live.run cfgKey
             [Live.Mount noFault; Live.ActivationSettled 0 true noFault]
             (Live.init cfgKey true) in
  Live.screenMounted s = true
  ∧ subscriptionRef (Live.core s) = Some 0
  ∧ listeners (native (Live.core s)) = [0]
  ∧ subscribe (Live.core s) = (Returned (), Live.core s)
  ∧ subscriptionRef (Live.core (Live.step cfgKey (Live.Unmount noFault) s)) = None
  ∧ listeners (native (Live.core (Live.step cfgKey (Live.Unmount noFault) s))) = [].
Proof.
  intros s.
  destruct (at_most_one_subscription cfgKey true noFault
              [Live.Mount noFault; Live.ActivationSettled 0 true noFault] [])
    as ((_ & _ & _ & _ & Hu) & _ & Hsub).
  split; [reflexivity|]. split; [reflexivity|]. split; [reflexivity|].
  split; [exact (Hsub (Live.core s) 0 eq_refl)|].
  exact (Hu eq_refl).
Defined.

(** ** The start button of the screen with the explicit lifecycle *)



(** ** Permission *)

(** The views under a missing permission.  While the permission is not
    granted (the platform grant and the framework grant are not both
    true) a mounted screen renders the permission message and nothing
    else: no camera view of either backend is mounted, so the vision
    camera is not active, and no press and no vision code reaches the
    controller. *)
Theorem permission_denied_blocks_the_views (cfg : Config) :
  (∀ s : Live.State,
     Live.screenMounted s = true →
     Live.androidPermission s && Live.hasPermission s = false →
     Live.render cfg s = Live.PermissionMessage
     ∧ Live.visionActive cfg s = false
     ∧ (∀ t throws, Live.step cfg (Live.Press t throws) s = s)
     ∧ (∀ codes, Live.step cfg (Live.CodeScanned codes) s = s))
  ∧ (∀ l : Lifecycle.State,
       Lifecycle.screenMounted l = true →
       Lifecycle.androidPermission l && Lifecycle.hasPermission l = false →
       Lifecycle.render cfg l = Lifecycle.PermissionMessage
       ∧ (∀ throws, Lifecycle.step cfg (Lifecycle.PressStart throws) l = l)
       ∧ (∀ t, Lifecycle.step cfg (Lifecycle.SelectType t) l = l)
       ∧ (∀ throws, Lifecycle.step cfg (Lifecycle.PressClose throws) l = l)
       ∧ Lifecycle.step cfg Lifecycle.PressReset l = l
       ∧ (∀ codes, Lifecycle.step cfg (Lifecycle.CodeScanned codes) l = l)).
Proof.
  split.
  - intros s Hm Hp.
    assert (Live.render cfg s = Live.PermissionMessage) as Hr.
    { unfold Live.render. rewrite Hm. simpl.
      by destruct (Live.androidPermission s), (Live.hasPermission s). }
    split_and!; [done|by unfold Live.visionActive; rewrite Hr| |].
    + intros t throws. simpl. unfold Live.press, Live.buttonsShown.
      rewrite Hm. simpl. by rewrite Hp.
    + intros codes. simpl. by rewrite Hr.
  - intros l Hm Hp.
    assert (Lifecycle.render cfg l = Lifecycle.PermissionMessage) as Hr.
    { unfold Lifecycle.render. rewrite Hm. simpl.
      by destruct (Lifecycle.androidPermission l), (Lifecycle.hasPermission l). }
    split_and!; [done|..]; intros; simpl; by rewrite Hr.
Qed.

Lemma android_refusal_example :
  let s := Live.run cfgAndroid
             [Live.Mount noFault; Live.AndroidPermissionResult false]
             (Live.init cfgAndroid true) in
  Live.androidPermission s && Live.hasPermission s = false
  ∧ Live.render cfgAndroid s = Live.PermissionMessage
  ∧ Live.visionActive cfgAndroid s = false
  ∧ (∀ t throws, Live.step cfgAndroid (Live.Press t throws) s = s)
  ∧ (∀ codes, Live.step cfgAndroid (Live.CodeScanned codes) s = s).
Proof.
  intros s. split; [reflexivity|].
  exact (proj1 (permission_denied_blocks_the_views cfgAndroid) s eq_refl eq_refl).
Defined.

(** On Android, with the permission refused, the screen shows the
    permission message, and the effect run at mount has started the cortex
    camera, preview, capture and decoding all the same. *)
Lemma cortex_started_while_permission_denied :
  let s := Live.run cfgAndroid
             [Live.Mount noFault; Live.AndroidPermissionResult false;
              Live.ActivationSettled 0 true noFault]
             (Live.init cfgAndroid true) in
  Live.androidPermission s && Live.hasPermission s = false
  ∧ Live.render cfgAndroid s = Live.PermissionMessage
  ∧ take 4 (calls (native (Live.core s)))
    = [SetDecoding true; SetVideoCapturing true; StartPreview; StartCamera]
  ∧ Live.cortexActive s = true.
Proof. vm_compute. repeat split. Qed.

(** ** Switching while the activation is pending *)

(** C1, at the failing input.  The screen is mounted with cortex selected
    and the activation pending; the user switches to vision; the
    activation then succeeds.  The cortex camera and decoder are running
    while the vision camera is the selected and mounted one, and a decode
    event of the cortex decoder is written to the displayed result. *)
Theorem switch_during_activation_leaves_both_backends_active :
  let s := Live.run cfgKey
             [Live.Mount noFault; Live.Press vision noFault;
              Live.ActivationSettled 0 true noFault]
             (Live.init cfgKey true) in
  let s' := Live.step cfgKey
              (Live.DecodeResult (Some [ {| status := success; barcodeData := "X" |} ]))
              s in
  Live.scannerType s = vision
  ∧ Live.visionActive cfgKey s = true
  ∧ Live.cortexActive s = true
  ∧ listeners (native (Live.core s)) = [0]
  ∧ Live.lastResult s = ""
  ∧ Live.lastResult s' = "X".
Proof. vm_compute. repeat split. Qed.

(** C5, at the failing input.  When the suspended [startCortex] of the
    first run of the effect is resumed, the [mounted] variable of that run
    is false (its cleanup has run), and the start goes on all the same: the
    flag is set, the listener attached, camera, preview, capture and
    decoding switched on. *)
Theorem stale_start_is_not_aborted :
  let s := Live.run cfgKey
             [Live.Mount noFault; Live.Press vision noFault]
             (Live.init cfgKey true) in
  let s' := Live.step cfgKey (Live.ActivationSettled 0 true noFault) s in
  Live.pending s = [0]
  ∧ Live.mountedOf 0 s = false
  ∧ Live.cortexActive s = false
  ∧ subscriptionRef (Live.core s) = None
  ∧ subscriptionRef (Live.core s') = Some 0
  ∧ licenseActivatedRef (Live.core s') = true
  ∧ cameraOn (native (Live.core s')) = true
  ∧ previewOn (native (Live.core s')) = true
  ∧ videoCapturing (native (Live.core s')) = true
  ∧ decoding (native (Live.core s')) = true.
Proof. vm_compute. repeat split. Qed.

(** ** The start and the teardown sequence *)

(** X1.  [stopAllCameras] issues the calls of its [try] block in the order
    of the source, up to and including the first that throws; a flag is
    switched off exactly when its call was reached and did not throw; and
    whatever happened in the [try] block the call returns normally with the
    ref cleared. *)
Theorem teardown_runs_until_the_first_throw (throws : Faults) (c : Core) :
  let c' := (stopAllCameras throws c).2 in
  calls (native c') = (rev (issued throws teardownSequence) ++ calls (native c))%list
  ∧ decoding (native c')
    = (if throws (SetDecoding false) then decoding (native c) else false)
  ∧ videoCapturing (native c')
    = (if throws (SetDecoding false) || throws (SetVideoCapturing false)
       then videoCapturing (native c) else false)
  ∧ previewOn (native c')
    = (if throws (SetDecoding false) || throws (SetVideoCapturing false)
          || throws StopPreview
       then previewOn (native c) else false)
  ∧ cameraOn (native c')
    = (if throws (SetDecoding false) || throws (SetVideoCapturing false)
          || throws StopPreview || throws StopCamera
       then cameraOn (native c) else false)
  ∧ (stopAllCameras throws c).1 = Returned ()
  ∧ subscriptionRef c' = None.
Proof.
  unfold teardownSequence. simpl.
  sync_unfold. simpl.
  destruct (throws (SetDecoding false)); simpl;
    [by destruct (subscriptionRef c)|].
  destruct (throws (SetVideoCapturing false)); simpl;
    [by destruct (subscriptionRef c)|].
  destruct (throws StopPreview); simpl; [by destruct (subscriptionRef c)|].
  destruct (throws StopCamera); simpl; by destruct (subscriptionRef c).
Qed.

(** X2.  After the license step [startCortex] first attaches the listener
    (unless the ref holds one) and then issues its four calls in the order
    of the source, up to and including the first that throws.  So the ref
    holds a handle afterwards in every case, the call returns normally
    exactly when none of the four calls throws, and then camera, preview,
    capture and decoding are all on. *)
Theorem start_runs_until_the_first_throw (throws : Faults) (c : Core) :
  let r := startCortex_afterLicense throws c in
  calls (native r.2) = (rev (issued throws startSequence) ++ calls (native c))%list
  ∧ is_Some (subscriptionRef r.2)
  ∧ licenseActivatedRef r.2 = licenseActivatedRef c
  ∧ (r.1 = Returned () ↔ Forall (fun x => throws x = false) startSequence)
  ∧ (r.1 = Returned () →
     cameraOn (native r.2) = true ∧ previewOn (native r.2) = true
     ∧ videoCapturing (native r.2) = true ∧ decoding (native r.2) = true).
Proof.
  unfold startSequence. simpl. sync_unfold. simpl.
  assert (Forall (fun x => throws x = false)
            [StartCamera; StartPreview; SetVideoCapturing true; SetDecoding true]
          ↔ throws StartCamera = false ∧ throws StartPreview = false
            ∧ throws (SetVideoCapturing true) = false
            ∧ throws (SetDecoding true) = false) as HF
    by (rewrite !Forall_cons, Forall_nil; tauto).
  rewrite HF. clear HF.
  destruct (subscriptionRef c) as [h|] eqn:Hr; simpl;
    destruct (throws StartCamera); simpl;
    try (split_and!; [done|by eexists|done|split; [done|by intros (? & _)]|done]);
    destruct (throws StartPreview); simpl;
    try (split_and!; [done|by eexists|done|split; [done|by intros (_ & ? & _)]|done]);
    destruct (throws (SetVideoCapturing true)); simpl;
    try (split_and!; [done|by eexists|done|split; [done|by intros (_ & _ & ? & _)]|done]);
    destruct (throws (SetDecoding true)); simpl;
    try (split_and!; [done|by eexists|done|split; [done|by intros (_ & _ & _ & ?)]|done]);
    split_and!; try done; by eexists.
Qed.

Lemma start_with_failing_preview :
  let r := startCortex_afterLicense (throwsOn StartPreview) core0 in
  r.1 ≠ Returned ()
  ∧ calls (native r.2) = [StartPreview; StartCamera]
  ∧ is_Some (subscriptionRef r.2).
Proof.
  destruct (start_runs_until_the_first_throw (throwsOn StartPreview) core0)
    as (Hc & Hs & _ & Hr & _).
  split_and!; [|exact Hc|exact Hs].
  intros H. apply Hr in H.
  apply Forall_cons in H as [_ H]. apply Forall_cons in H as [H _].
  discriminate H.
Defined.

Lemma stopAllCameras_noFault_off c :
  cameraOn (native (stopAllCameras noFault c).2) = false
  ∧ previewOn (native (stopAllCameras noFault c).2) = false
  ∧ videoCapturing (native (stopAllCameras noFault c).2) = false
  ∧ decoding (native (stopAllCameras noFault c).2) = false.
Proof. unfold noFault. sync_cases. Qed.


(** X3.  A stop whose SDK calls go through undoes a start however far the
    start got: whichever of the start calls threw, afterwards camera,
    preview, capture and decoding are off, the ref is cleared, no listener
    is attached, and the activation flag is what it was. *)
Theorem stop_undoes_any_start (throws : Faults) (c : Core) :
  subscription_owned c →
  let c2 := (stopAllCameras noFault (startCortex_afterLicense throws c).2).2 in
  cameraOn (native c2) = false ∧ previewOn (native c2) = false
  ∧ videoCapturing (native c2) = false ∧ decoding (native c2) = false
  ∧ subscriptionRef c2 = None ∧ listeners (native c2) = []
  ∧ licenseActivatedRef c2 = licenseActivatedRef c.
Proof.
  intros Hc c2. subst c2.
  pose proof (startCortex_afterLicense_owned throws c Hc) as Ho.
  destruct (stopAllCameras_noFault_off (startCortex_afterLicense throws c).2)
    as (Hcam & Hp & Hv & Hd).
  split_and!; try done.
  - apply stopAllCameras_refs.
  - by apply stopAllCameras_owned.
  - rewrite (proj2 (stopAllCameras_refs noFault _)). sync_cases.
Qed.

Lemma stop_undoes_a_partial_start :
  let c2 := (stopAllCameras noFault
               (startCortex_afterLicense (throwsOn (SetDecoding true)) core0).2).2 in
  cameraOn (native (startCortex_afterLicense (throwsOn (SetDecoding true)) core0).2)
    = true
  ∧ cameraOn (native c2) = false ∧ listeners (native c2) = [].
Proof.
  assert (subscription_owned core0) as H0 by reflexivity.
  destruct (stop_undoes_any_start (throwsOn (SetDecoding true)) core0 H0)
    as (Hc & _ & _ & _ & _ & Hl & _).
  split; [reflexivity|]. exact (conj Hc Hl).
Defined.

(** ** Properties of the refs and the native side along every run *)

Section CoreInvariant.

Variable P : Core → Prop.
Variable cfg : Config.
Hypothesis P_stop : ∀ throws c, P c → P (stopAllCameras throws c).2.
Hypothesis P_resume : ∀ throws fulfilled c, P c → P (startCortex_resume throws fulfilled c).2.

Lemma live_step_core_invariant ev s :
  (∀ throws c, P c → P (startCortex_begin cfg Live.missingKeyMessage throws c).2) →
  P (Live.core s) → P (Live.core (Live.step cfg ev s)).
Proof.
  intros P_begin Hs. destruct ev; simpl.
  - destruct (Live.screenMounted s); simpl; [done|].
    destruct (Live.unmounted s); simpl; [done|].
    unfold Live.runEffect, Live.start, Live.stopAllCameras. simpl.
    pose proof (P_stop throws (Live.core s) Hs) as Ho.
    pose proof (P_begin throws _ Ho) as Hb.
    repeat (case_match; simpl in *; simplify_eq; try done).
  - destruct (Live.screenMounted s); [|done].
    unfold Live.cleanup, Live.stopAllCameras. simpl.
    destruct (Live.effect s); simpl; [|done].
    by apply P_stop.
  - by destruct (platformIsAndroid cfg).
  - done.
  - unfold Live.press. destruct (Live.buttonsShown s); [|done].
    case_bool_decide; [|done].
    unfold Live.runEffect, Live.start, Live.cleanup, Live.stopAllCameras. simpl.
    set (c1 := match Live.effect s with
               | Some _ => (stopAllCameras throws (Live.core s)).2
               | None => Live.core s
               end).
    assert (P c1) as H1.
    { subst c1. destruct (Live.effect s); [by apply P_stop|done]. }
    destruct (Live.effect s) eqn:He; simpl;
      fold c1;
      pose proof (P_stop throws c1 H1) as Ho;
      pose proof (P_begin throws _ Ho) as Hb;
      repeat (case_match; simpl in *; simplify_eq; try done).
  - unfold Live.settle. destruct (Live.pending s !! i); [|done]. simpl.
    pose proof (P_resume throws fulfilled _ Hs) as Hr.
    repeat (case_match; simpl in *; simplify_eq; try done).
  - apply (foldr_preserves (fun x => P (Live.core x))); [|done].
    intros x Hx. unfold Live.onDecodeResult.
    repeat (case_match; simpl in *; simplify_eq; try done).
  - unfold Live.onCodeScanned.
    repeat (case_match; simpl in *; simplify_eq; try done).
Qed.

Lemma live_run_core_invariant evs s :
  (∀ throws c, P c → P (startCortex_begin cfg Live.missingKeyMessage throws c).2) →
  P (Live.core s) → P (Live.core (Live.run cfg evs s)).
Proof.
  intros P_begin. revert s.
  induction evs as [|ev evs IH]; intros s Hs; simpl; [done|].
  apply IH. by apply live_step_core_invariant.
Qed.

Lemma lifecycle_step_core_invariant ev s :
  (∀ throws c, P c → P (startCortex_begin cfg Lifecycle.missingKeyMessage throws c).2) →
  P (Lifecycle.core s) → P (Lifecycle.core (Lifecycle.step cfg ev s)).
Proof.
  intros P_begin Hs. destruct ev; simpl.
  - by destruct (Lifecycle.screenMounted s), (Lifecycle.unmounted s).
  - destruct (Lifecycle.screenMounted s); [|done].
    simpl. by apply P_stop.
  - by destruct (platformIsAndroid cfg).
  - done.
  - by destruct (Lifecycle.render cfg s).
  - destruct (Lifecycle.render cfg s); try done.
    unfold Lifecycle.pressStart. simpl.
    pose proof (P_begin throws _ Hs) as Hb.
    repeat (case_match; simpl in *; simplify_eq; try done).
  - destruct (Lifecycle.render cfg s); try done.
    simpl. by apply P_stop.
  - by destruct (Lifecycle.render cfg s).
  - unfold Lifecycle.settle. destruct (Lifecycle.pending s); [done|]. simpl.
    pose proof (P_resume throws fulfilled _ Hs) as Hr.
    repeat (case_match; simpl in *; simplify_eq; try done).
  - apply (foldr_preserves (fun x => P (Lifecycle.core x))); [|done].
    intros x Hx.
    destruct (lifecycle_onDecodeResult_core throws results x) as [-> | ->]; [done|].
    by apply P_stop.
  - destruct (Lifecycle.render cfg s) as [| | |[]|]; try done.
    unfold Lifecycle.onCodeScanned.
    repeat (case_match; simpl in *; simplify_eq; try done).
Qed.

Lemma lifecycle_run_core_invariant evs s :
  (∀ throws c, P c → P (startCortex_begin cfg Lifecycle.missingKeyMessage throws c).2) →
  P (Lifecycle.core s) → P (Lifecycle.core (Lifecycle.run cfg evs s)).
Proof.
  intros P_begin. revert s.
  induction evs as [|ev evs IH]; intros s Hs; simpl; [done|].
  apply IH. by apply lifecycle_step_core_invariant.
Qed.

End CoreInvariant.

(** X4.  The activation flag never reverts: from a state in which
    [licenseActivatedRef] is true, whatever events follow on either screen
    (switches, stops, failed or successful settlements of other
    activations, unmount, SDK faults), it is still true. *)
Theorem activation_flag_never_reverts (cfg : Config) :
  (∀ evs s, licenseActivatedRef (Live.core s) = true →
            licenseActivatedRef (Live.core (Live.run cfg evs s)) = true)
  ∧ (∀ evs l, licenseActivatedRef (Lifecycle.core l) = true →
              licenseActivatedRef (Lifecycle.core (Lifecycle.run cfg evs l)) = true).
Proof.
  split; intros evs s Hs.
  - apply (live_run_core_invariant (fun c => licenseActivatedRef c = true));
      try done.
    + intros throws c Hc. by rewrite (proj2 (stopAllCameras_refs throws c)).
    + intros throws fulfilled c Hc. sync_cases.
    + intros throws c Hc. sync_cases.
  - apply (lifecycle_run_core_invariant (fun c => licenseActivatedRef c = true));
      try done.
    + intros throws c Hc. by rewrite (proj2 (stopAllCameras_refs throws c)).
    + intros throws fulfilled c Hc. sync_cases.
    + intros throws c Hc. sync_cases.
Qed.

Lemma activation_flag_survives_a_failed_retry :
  let s := Live.run cfgKey
             [Live.Mount noFault; Live.Press vision noFault;
              Live.Press cortex noFault; Live.ActivationSettled 0 true noFault]
             (Live.init cfgKey true) in
  licenseActivatedRef (Live.core s) = true
  ∧ licenseActivatedRef
      (Live.core (Live.run cfgKey
                    [Live.ActivationSettled 0 false noFault;
                     Live.Press vision noFault; Live.Unmount noFault] s)) = true.
Proof.
  intros s. split; [reflexivity|].
  exact (proj1 (activation_flag_never_reverts cfgKey)
           [Live.ActivationSettled 0 false noFault;
            Live.Press vision noFault; Live.Unmount noFault] s eq_refl).
Defined.

Lemma configuredCalls_stop cfg throws c :
  configuredCalls cfg c → configuredCalls cfg (stopAllCameras throws c).2.
Proof.
  intros [Hc Hid]. split.
  - sync_cases; repeat (apply Forall_cons; split; [done|]); done.
  - sync_cases.
Qed.

Lemma configuredCalls_begin cfg msg throws c :
  configuredCalls cfg c → configuredCalls cfg (startCortex_begin cfg msg throws c).2.
Proof.
  intros [Hc Hid]. split.
  - sync_cases; repeat (apply Forall_cons; split; [done|]); done.
  - sync_cases; auto.
Qed.

Lemma configuredCalls_resume cfg throws fulfilled c :
  configuredCalls cfg c → configuredCalls cfg (startCortex_resume throws fulfilled c).2.
Proof.
  intros [Hc Hid]. split.
  - sync_cases; repeat (apply Forall_cons; split; [done|]); done.
  - sync_cases.
Qed.

(** X5.  In every state either screen can reach, every [setCustomerId]
    that has been issued carried the configured customer id, or
    'ReplaceExpirationLib' when none is configured (an empty id counts as
    configured), every [activateLicense] carried the configured license
    key, which is not empty, and the customer id the SDK holds is unset or
    that one. *)
Theorem sdk_receives_the_configured_credentials
    (cfg : Config) (hasPermission0 : bool) :
  (∀ evs, configuredCalls cfg
            (Live.core (Live.run cfg evs (Live.init cfg hasPermission0))))
  ∧ (∀ evs, configuredCalls cfg
              (Lifecycle.core
                 (Lifecycle.run cfg evs (Lifecycle.init cfg hasPermission0)))).
Proof.
  assert (configuredCalls cfg core0) as H0.
  { split; [constructor|by left]. }
  split; intros evs.
  - apply (live_run_core_invariant (configuredCalls cfg)); try done.
    + intros. by apply configuredCalls_stop.
    + intros. by apply configuredCalls_resume.
    + intros. by apply configuredCalls_begin.
  - apply (lifecycle_run_core_invariant (configuredCalls cfg)); try done.
    + intros. by apply configuredCalls_stop.
    + intros. by apply configuredCalls_resume.
    + intros. by apply configuredCalls_begin.
Qed.

Lemma live_step_unstartable cfg ev s :
  (∀ throws c, licenseActivatedRef c = false →
     startCortex_begin cfg Live.missingKeyMessage throws c
     = (Thrown (MissingCredential Live.missingKeyMessage), c)) →
  never_started (Live.core s) ∧ Live.pending s = [] →
  never_started (Live.core (Live.step cfg ev s))
  ∧ Live.pending (Live.step cfg ev s) = [].
Proof.
  intros Hk [Hs Hp]. destruct ev; simpl.
  - destruct (Live.screenMounted s); simpl; [done|].
    destruct (Live.unmounted s); simpl; [done|].
    unfold Live.runEffect, Live.start, Live.stopAllCameras. simpl.
    pose proof (stopAllCameras_never_started throws _ Hs) as Ho.
    pose proof (Hk throws _ (proj1 Ho)) as Hb.
    repeat (case_match; simpl in *; simplify_eq; try done).
  - destruct (Live.screenMounted s); [|done].
    unfold Live.cleanup, Live.stopAllCameras. simpl.
    destruct (Live.effect s); simpl; [|done].
    split; [|done]. by apply stopAllCameras_never_started.
  - by destruct (platformIsAndroid cfg).
  - done.
  - unfold Live.press. destruct (Live.buttonsShown s); [|done].
    case_bool_decide; [|done].
    unfold Live.runEffect, Live.start, Live.cleanup, Live.stopAllCameras. simpl.
    set (c1 := match Live.effect s with
               | Some _ => (stopAllCameras throws (Live.core s)).2
               | None => Live.core s
               end).
    assert (never_started c1) as H1.
    { subst c1. destruct (Live.effect s); [by apply stopAllCameras_never_started|done]. }
    destruct (Live.effect s) eqn:He; simpl;
      fold c1;
      pose proof (stopAllCameras_never_started throws c1 H1) as Ho;
      pose proof (Hk throws _ (proj1 Ho)) as Hb;
      repeat (case_match; simpl in *; simplify_eq; try done).
  - unfold Live.settle. by rewrite Hp.
  - split.
    + apply (foldr_preserves (fun x => never_started (Live.core x))); [|done].
      intros x Hx. unfold Live.onDecodeResult.
      repeat (case_match; simpl in *; simplify_eq; try done).
    + apply (foldr_preserves (fun x => Live.pending x = [])); [|done].
      intros x Hx. unfold Live.onDecodeResult.
      repeat (case_match; simpl in *; simplify_eq; try done).
  - unfold Live.onCodeScanned.
    repeat (case_match; simpl in *; simplify_eq; try done).
Qed.

Lemma live_run_unstartable cfg evs s :
  (∀ throws c, licenseActivatedRef c = false →
     startCortex_begin cfg Live.missingKeyMessage throws c
     = (Thrown (MissingCredential Live.missingKeyMessage), c)) →
  never_started (Live.core s) ∧ Live.pending s = [] →
  never_started (Live.core (Live.run cfg evs s))
  ∧ Live.pending (Live.run cfg evs s) = [].
Proof.
  intros Hk. revert s. induction evs as [|ev evs IH]; intros s Hs; simpl; [done|].
  apply IH. by apply live_step_unstartable.
Qed.

Lemma lifecycle_step_unstartable cfg ev s :
  (∀ throws c, licenseActivatedRef c = false →
     startCortex_begin cfg Lifecycle.missingKeyMessage throws c
     = (Thrown (MissingCredential Lifecycle.missingKeyMessage), c)) →
  never_started (Lifecycle.core s) ∧ Lifecycle.pending s = 0 →
  never_started (Lifecycle.core (Lifecycle.step cfg ev s))
  ∧ Lifecycle.pending (Lifecycle.step cfg ev s) = 0.
Proof.
  intros Hk [Hs Hp]. destruct ev; simpl.
  - by destruct (Lifecycle.screenMounted s), (Lifecycle.unmounted s).
  - destruct (Lifecycle.screenMounted s); [|done].
    simpl. split; [|done]. by apply stopAllCameras_never_started.
  - by destruct (platformIsAndroid cfg).
  - done.
  - by destruct (Lifecycle.render cfg s).
  - destruct (Lifecycle.render cfg s); try done.
    unfold Lifecycle.pressStart. simpl.
    pose proof (Hk throws _ (proj1 Hs)) as Hb.
    repeat (case_match; simpl in *; simplify_eq; try done).
  - destruct (Lifecycle.render cfg s); try done.
    simpl. split; [|done]. by apply stopAllCameras_never_started.
  - by destruct (Lifecycle.render cfg s).
  - unfold Lifecycle.settle. by rewrite Hp.
  - apply (foldr_preserves
             (fun x => never_started (Lifecycle.core x) ∧ Lifecycle.pending x = 0));
      [|done].
    intros x [Hx Hpx]. split.
    + destruct (lifecycle_onDecodeResult_core throws results x) as [-> | ->]; [done|].
      by apply stopAllCameras_never_started.
    + unfold Lifecycle.onDecodeResult.
      repeat (case_match; simpl in *; simplify_eq; try done).
  - destruct (Lifecycle.render cfg s) as [| | |[]|]; try done.
    unfold Lifecycle.onCodeScanned.
    repeat (case_match; simpl in *; simplify_eq; try done).
Qed.

Lemma lifecycle_run_unstartable cfg evs s :
  (∀ throws c, licenseActivatedRef c = false →
     startCortex_begin cfg Lifecycle.missingKeyMessage throws c
     = (Thrown (MissingCredential Lifecycle.missingKeyMessage), c)) →
  never_started (Lifecycle.core s) ∧ Lifecycle.pending s = 0 →
  never_started (Lifecycle.core (Lifecycle.run cfg evs s))
  ∧ Lifecycle.pending (Lifecycle.run cfg evs s) = 0.
Proof.
  intros Hk. revert s. induction evs as [|ev evs IH]; intros s Hs; simpl; [done|].
  apply IH. by apply lifecycle_step_unstartable.
Qed.

(** X6.  An empty license key is a missing one: with
    [EXPO_PUBLIC_CORTEX_LICENSE_KEY] set to the empty text, in every state
    either screen can reach [startCortex] throws the missing-key error
    before any call to the SDK, and nothing but the teardown sequence has
    ever been issued. *)
Theorem empty_license_key_blocks_cortex_start (cfg : Config) :
  EXPO_PUBLIC_CORTEX_LICENSE_KEY cfg = Some "" →
  (∀ hasPermission0 evs throws,
     let c := Live.core (Live.run cfg evs (Live.init cfg hasPermission0)) in
     startCortex_begin cfg Live.missingKeyMessage throws c
       = (Thrown (MissingCredential Live.missingKeyMessage), c)
     ∧ Forall (fun x => teardownCall x = true) (calls (native c)))
  ∧ (∀ hasPermission0 evs throws,
       let c := Lifecycle.core (Lifecycle.run cfg evs (Lifecycle.init cfg hasPermission0)) in
       startCortex_begin cfg Lifecycle.missingKeyMessage throws c
         = (Thrown (MissingCredential Lifecycle.missingKeyMessage), c)
       ∧ Forall (fun x => teardownCall x = true) (calls (native c))).
Proof.
  intros Hk.
  assert (∀ msg throws c, licenseActivatedRef c = false →
            startCortex_begin cfg msg throws c = (Thrown (MissingCredential msg), c))
    as Hthrow.
  { intros msg throws c Hf. sync_unfold. by rewrite Hf, Hk. }
  split; intros hp evs throws c.
  - destruct (live_run_unstartable cfg evs (Live.init cfg hp)) as [[Hf Hc] _].
    { intros. by apply Hthrow. }
    { repeat split. simpl. constructor. }
    split; [by apply Hthrow|done].
  - destruct (lifecycle_run_unstartable cfg evs (Lifecycle.init cfg hp))
      as [[Hf Hc] _].
    { intros. by apply Hthrow. }
    { repeat split. simpl. constructor. }
    split; [by apply Hthrow|done].
Qed.

Lemma empty_key_run_example :
  EXPO_PUBLIC_CORTEX_LICENSE_KEY cfgEmptyKey = Some ""
  ∧ (let c := Lifecycle.core
                (Lifecycle.run cfgEmptyKey
                   [Lifecycle.Mount; Lifecycle.PressStart noFault;
                    Lifecycle.PressClose noFault]
                   (Lifecycle.init cfgEmptyKey true)) in
     startCortex_begin cfgEmptyKey Lifecycle.missingKeyMessage noFault c
       = (Thrown (MissingCredential Lifecycle.missingKeyMessage), c)
     ∧ Forall (fun x => teardownCall x = true) (calls (native c))).
Proof.
  split; [reflexivity|].
  exact (proj2 (empty_license_key_blocks_cortex_start cfgEmptyKey eq_refl)
           true
           [Lifecycle.Mount; Lifecycle.PressStart noFault; Lifecycle.PressClose noFault]
           noFault).
Defined.

(** ** The [mounted] variables of the live screen *)

Lemma live_start_fields cfg throws e s :
  Live.mounted (Live.start cfg throws e s) = Live.mounted s
  ∧ Live.effect (Live.start cfg throws e s) = Live.effect s
  ∧ Live.screenMounted (Live.start cfg throws e s) = Live.screenMounted s
  ∧ (Live.pending (Live.start cfg throws e s) = Live.pending s
     ∨ Live.pending (Live.start cfg throws e s) = (Live.pending s ++ [e])%list).
Proof.
  unfold Live.start, Live.stopAllCameras. simpl.
  repeat (case_match; simpl in *; simplify_eq; auto).
Qed.

Lemma consistent_runEffect cfg throws s :
  mounted_consistent s → Live.effect s = None →
  Live.screenMounted s = true →
  mounted_consistent (Live.runEffect cfg throws s).
Proof.
  intros (Hm & Hs & Hp) He Hsm. unfold Live.runEffect.
  set (s1 := Live.set_mounted _ _ s).
  destruct (live_start_fields cfg throws (length (Live.mounted s)) s1)
    as (Em & Ee & Es & Ep).
  unfold mounted_consistent. rewrite Em, Ee, Es. subst s1. simpl in *.
  split_and!.
  - intros e. split.
    + intros Hl. destruct (decide (e < length (Live.mounted s))%nat) as [Hlt|Hge].
      * rewrite lookup_app_l in Hl by done. apply Hm in Hl. congruence.
      * destruct (decide (e = length (Live.mounted s))) as [->|Hne]; [done|].
        rewrite lookup_ge_None_2 in Hl; [done|].
        rewrite length_app. simpl. lia.
    + intros [= <-]. rewrite lookup_app_r by done.
      by rewrite Nat.sub_diag.
  - by rewrite Hsm.
  - assert (Forall (fun e => (e < length (Live.mounted s ++ [true]))%nat)
              (Live.pending s)) as Hp'.
    { eapply Forall_impl; [exact Hp|]. intros x Hx. rewrite length_app. simpl in *. lia. }
    destruct Ep as [-> | ->]; [done|].
    apply Forall_app. split; [done|].
    apply Forall_singleton. rewrite length_app. simpl. lia.
Qed.

Lemma consistent_cleanup throws s :
  mounted_consistent s →
  mounted_consistent (Live.cleanup throws s)
  ∧ Live.effect (Live.cleanup throws s) = None
  ∧ Live.screenMounted (Live.cleanup throws s) = Live.screenMounted s.
Proof.
  intros Hc. pose proof Hc as (Hm & Hs & Hp). unfold Live.cleanup.
  destruct (Live.effect s) as [e0|] eqn:He; [|done].
  unfold Live.stopAllCameras, mounted_consistent. simpl.
  split_and!; try done.
  - intros e. split; [|done]. intros Hl.
    destruct (decide (e = e0)) as [->|Hne].
    + destruct (decide (e0 < length (Live.mounted s))%nat) as [Hlt|Hge].
      * by rewrite list_lookup_insert_eq in Hl.
      * rewrite list_insert_ge in Hl by lia.
        rewrite lookup_ge_None_2 in Hl by lia. done.
    + rewrite list_lookup_insert_ne in Hl by done.
      apply Hm in Hl. congruence.
  - eapply Forall_impl; [exact Hp|]. intros x Hx. simpl in *. by rewrite length_insert.
Qed.

Lemma live_step_consistent cfg ev s :
  mounted_consistent s → mounted_consistent (Live.step cfg ev s).
Proof.
  intros Hc. destruct ev; simpl.
  - destruct (Live.screenMounted s) eqn:Hsm; simpl; [done|].
    destruct (Live.unmounted s); simpl; [done|].
    apply consistent_runEffect; [|by apply Hc|done].
    destruct Hc as (Hm & Hs & Hp). by split_and!.
  - destruct (Live.screenMounted s) eqn:Hsm; [|done].
    destruct (consistent_cleanup throws s Hc) as ((Hm & Hs & Hp) & He & _).
    by split_and!.
  - destruct (platformIsAndroid cfg); [|done]. done.
  - done.
  - unfold Live.press. destruct (Live.buttonsShown s) eqn:Hb; [|done].
    assert (Live.screenMounted s = true) as Hsm.
    { unfold Live.buttonsShown in Hb. by destruct (Live.screenMounted s). }
    case_bool_decide; [|done].
    set (s0 := Live.setScannerType t (Live.setLastResult "" s)).
    assert (mounted_consistent s0) as H0 by done.
    destruct (consistent_cleanup throws s0 H0) as (H1 & He & Hs1).
    apply consistent_runEffect; [done|done|by rewrite Hs1].
  - unfold Live.settle. destruct (Live.pending s !! i) eqn:Hi; [|done].
    destruct Hc as (Hm & Hs & Hp).
    assert (mounted_consistent (Live.set_pending (delete i (Live.pending s)) s)) as Hd.
    { split_and!; try done. simpl. by apply Forall_delete. }
    repeat (case_match; simpl in *; simplify_eq; try done).
  - apply (foldr_preserves mounted_consistent); [|done].
    intros x Hx. unfold Live.onDecodeResult.
    repeat (case_match; simpl in *; simplify_eq; try done).
  - unfold Live.onCodeScanned.
    repeat (case_match; simpl in *; simplify_eq; try done).
Qed.

Lemma live_run_consistent cfg evs s :
  mounted_consistent s → mounted_consistent (Live.run cfg evs s).
Proof.
  revert s. induction evs as [|ev evs IH]; intros s Hs; simpl; [done|].
  apply IH. by apply live_step_consistent.
Qed.

(** X7.  In every state the live screen can reach, the [mounted] variable
    of a run of the [scannerType] effect is true exactly when that run is
    the one whose cleanup is registered, so at most one is true; every
    suspended start belongs to a run that has happened; and the test
    [if (!mounted) return] in [start], which runs right after the effect
    has set its own variable, never takes the return. *)
Theorem one_effect_run_is_mounted
    (cfg : Config) (hasPermission0 : bool) (evs : list Live.Event) :
  let s := Live.run cfg evs (Live.init cfg hasPermission0) in
  (∀ e, Live.mountedOf e s = true ↔ Live.effect s = Some e)
  ∧ Forall (fun e => (e < length (Live.mounted s))%nat) (Live.pending s)
  ∧ (∀ throws,
       Live.mountedOf (length (Live.mounted s))
         (Live.stopAllCameras throws
            (Live.set_mounted (Live.mounted s ++ [true])%list
               (Some (length (Live.mounted s))) s)) = true).
Proof.
  intros s.
  assert (mounted_consistent s) as (Hm & _ & Hp).
  { apply live_run_consistent. unfold mounted_consistent. simpl.
    split; [intros e; by rewrite lookup_nil|]. split; [done|constructor]. }
  split_and!; [|done|].
  - intros e. rewrite <- Hm. unfold Live.mountedOf.
    destruct (Live.mounted s !! e) as [[]|]; simpl; split; congruence.
  - intros throws. unfold Live.mountedOf, Live.stopAllCameras. simpl.
    rewrite lookup_app_r by done. by rewrite Nat.sub_diag.
Qed.

(** ** The session of the screen with the explicit lifecycle *)

Lemma lifecycle_DecodeResult_not_success cfg results throws s :
  (∀ r rest, results = Some (r :: rest) → status r ≠ success) →
  Lifecycle.step cfg (Lifecycle.DecodeResult results throws) s = s.
Proof.
  intros H. simpl.
  assert (∀ x, Lifecycle.onDecodeResult throws results x = x) as Hid.
  { intros x. unfold Lifecycle.onDecodeResult.
    destruct results as [[|r rest]|]; simpl; try done.
    case_decide; [|done]. by destruct (H r rest eq_refl). }
  induction (listeners (native (Lifecycle.core s))) as [|a l IH]; simpl; [done|].
  by rewrite IH, Hid.
Qed.

Lemma lifecycle_DecodeResult_success cfg r rest throws s :
  status r = success →
  (listeners (native (Lifecycle.core s)) = []
   ∧ Lifecycle.step cfg (Lifecycle.DecodeResult (Some (r :: rest)) throws) s = s)
  ∨ (Lifecycle.state
       (Lifecycle.step cfg (Lifecycle.DecodeResult (Some (r :: rest)) throws) s)
     = Lifecycle.result_
     ∧ Lifecycle.result
         (Lifecycle.step cfg (Lifecycle.DecodeResult (Some (r :: rest)) throws) s)
       = barcodeData r).
Proof.
  intros Hr. simpl.
  destruct (listeners (native (Lifecycle.core s))) as [|a l]; [by left|].
  right. simpl. unfold Lifecycle.onDecodeResult at 1 3. simpl.
  rewrite !decide_True by done. by split.
Qed.

(** X8.  On the screen with the explicit lifecycle the first successful
    decode ends the session: when the listener is attached and a batch
    arrives whose first element has status success, the result is that
    element's [barcodeData], the state is result, the teardown sequence
    has been issued, the ref is cleared and no listener is left, so a
    decode event that arrives next changes nothing; and when no start is
    suspended in the license activation, no sequence of decode events and
    settlements that follows changes anything. *)
Theorem first_success_ends_the_session
    (cfg : Config) (l : Lifecycle.State) (throws : Faults)
    (d : string) (rest : list CDResult) :
  subscription_owned (Lifecycle.core l) →
  listeners (native (Lifecycle.core l)) ≠ [] →
  let l' := Lifecycle.step cfg
              (Lifecycle.DecodeResult
                 (Some ({| status := success; barcodeData := d |} :: rest)) throws) l in
  Lifecycle.state l' = Lifecycle.result_
  ∧ Lifecycle.result l' = d
  ∧ calls (native (Lifecycle.core l'))
    = (rev (issued throws teardownSequence) ++ calls (native (Lifecycle.core l)))%list
  ∧ subscriptionRef (Lifecycle.core l') = None
  ∧ listeners (native (Lifecycle.core l')) = []
  ∧ (∀ results throws',
       Lifecycle.step cfg (Lifecycle.DecodeResult results throws') l' = l')
  ∧ (Lifecycle.pending l = 0%nat →
     ∀ evs, Forall decodeOrSettlement evs → Lifecycle.run cfg evs l' = l').
Proof.
  intros Ho Hne l'.
  assert (l' = Lifecycle.setState Lifecycle.result_
                 (Lifecycle.stopAll throws (Lifecycle.setResult d l))) as El.
  { subst l'. simpl. unfold subscription_owned in Ho.
    destruct (subscriptionRef (Lifecycle.core l)); [|done].
    by rewrite Ho. }
  assert (listeners (native (Lifecycle.core l')) = []) as Hl.
  { rewrite El. simpl. by apply stopAllCameras_owned. }
  split_and!.
  - by rewrite El.
  - by rewrite El.
  - rewrite El. simpl. unfold teardownSequence. simpl. sync_cases.
  - rewrite El. simpl. apply stopAllCameras_refs.
  - done.
  - intros results throws'. simpl. by rewrite Hl.
  - intros Hp evs Hevs.
    assert (Lifecycle.pending l' = 0%nat) as Hp' by (by rewrite El).
    clearbody l'.
    induction Hevs as [|ev evs Hev _ IH]; simpl; [done|].
    assert (Lifecycle.step cfg ev l' = l') as ->; [|done].
    destruct ev; simpl in Hev; try done; simpl.
    + unfold Lifecycle.settle. by rewrite Hp'.
    + by rewrite Hl.
Qed.

Lemma first_success_example :
  let l := Lifecycle.run cfgKey
             [Lifecycle.Mount; Lifecycle.PressStart noFault;
              Lifecycle.ActivationSettled true noFault]
             (Lifecycle.init cfgKey true) in
  let l' := Lifecycle.step cfgKey
              (Lifecycle.DecodeResult
                 (Some [ {| status := success; barcodeData := "ABC123" |} ]) noFault) l in
  listeners (native (Lifecycle.core l)) = [0]
  ∧ Lifecycle.state l' = Lifecycle.result_
  ∧ Lifecycle.result l' = "ABC123"
  ∧ listeners (native (Lifecycle.core l')) = [].
Proof.
  intros l l'.
  assert (subscription_owned (Lifecycle.core l)) as Ho by reflexivity.
  assert (listeners (native (Lifecycle.core l)) ≠ []) as Hne
    by (intros H; discriminate H).
  destruct (first_success_ends_the_session cfgKey l noFault "ABC123" [] Ho Hne)
    as (H1 & H2 & _ & _ & H5 & _).
  split; [reflexivity|]. exact (conj H1 (conj H2 H5)).
Defined.

(** X9.  The state result is entered only by a decode: if a step takes the
    screen with the explicit lifecycle into result from another state, the
    event was a cortex batch whose first element has status success, and
    the result is its [barcodeData], or a vision batch whose first code
    has a value that is not empty, and the result is that value. *)
Theorem result_is_entered_by_a_decode_only
    (cfg : Config) (ev : Lifecycle.Event) (s : Lifecycle.State) :
  Lifecycle.state (Lifecycle.step cfg ev s) = Lifecycle.result_ →
  Lifecycle.state s ≠ Lifecycle.result_ →
  (∃ r rest throws,
     ev = Lifecycle.DecodeResult (Some (r :: rest)) throws
     ∧ status r = success
     ∧ Lifecycle.result (Lifecycle.step cfg ev s) = barcodeData r)
  ∨ (∃ v rest,
       ev = Lifecycle.CodeScanned ({| value := Some v |} :: rest)
       ∧ v ≠ ""
       ∧ Lifecycle.result (Lifecycle.step cfg ev s) = v).
Proof.
  intros Hres Hnot. destruct ev.
  - simpl in Hres. by destruct (Lifecycle.screenMounted s), (Lifecycle.unmounted s).
  - simpl in Hres. by destruct (Lifecycle.screenMounted s).
  - simpl in Hres. by destruct (platformIsAndroid cfg).
  - done.
  - simpl in Hres. by destruct (Lifecycle.render cfg s).
  - simpl in Hres. destruct (Lifecycle.render cfg s); try done.
    unfold Lifecycle.pressStart in Hres. simpl in Hres.
    repeat (case_match; simpl in *; simplify_eq; try done).
  - simpl in Hres. by destruct (Lifecycle.render cfg s).
  - simpl in Hres. by destruct (Lifecycle.render cfg s).
  - simpl in Hres. unfold Lifecycle.settle in Hres.
    repeat (case_match; simpl in *; simplify_eq; try done).
  - left. destruct results as [[|r rest]|].
    + rewrite lifecycle_DecodeResult_not_success in Hres by done. done.
    + destruct (decide (status r = success)) as [Hs|Hs].
      * destruct (lifecycle_DecodeResult_success cfg r rest throws s Hs)
          as [[_ E]|[_ E]]; [by rewrite E in Hres|].
        by exists r, rest, throws.
      * rewrite lifecycle_DecodeResult_not_success in Hres; [done|].
        by intros r' rest' [= <- <-].
    + rewrite lifecycle_DecodeResult_not_success in Hres by done. done.
  - right. simpl in *.
    destruct (Lifecycle.render cfg s) as [| | |[]|]; try done.
    unfold Lifecycle.onCodeScanned in *.
    destruct codes as [|[[v|]] rest]; try done.
    destruct (decide (v = "")); [done|].
    by exists v, rest.
Qed.

Lemma vision_code_enters_result :
  let s := Lifecycle.run cfgKey
             [Lifecycle.Mount; Lifecycle.SelectType vision;
              Lifecycle.PressStart noFault]
             (Lifecycle.init cfgKey true) in
  let s' := Lifecycle.step cfgKey
              (Lifecycle.CodeScanned [ {| value := Some "QR" |} ]) s in
  Lifecycle.state s = Lifecycle.scanning
  ∧ Lifecycle.state s' = Lifecycle.result_
  ∧ Lifecycle.result s' = "QR".
Proof.
  intros s s'. split; [reflexivity|]. split; [reflexivity|].
  assert (Lifecycle.state s ≠ Lifecycle.result_) as Hn
    by (intros H; discriminate H).
  destruct (result_is_entered_by_a_decode_only cfgKey
              (Lifecycle.CodeScanned [ {| value := Some "QR" |} ]) s eq_refl Hn)
    as [(r & rest & th & E & _)|(v & rest & E & _ & Hv)].
  - discriminate E.
  - injection E as <- _. exact Hv.
Defined.

(** ** What the events leave alone *)

Lemma live_start_view cfg throws e s :
  Live.scannerType (Live.start cfg throws e s) = Live.scannerType s
  ∧ Live.lastResult (Live.start cfg throws e s) = Live.lastResult s
  ∧ Live.androidPermission (Live.start cfg throws e s) = Live.androidPermission s
  ∧ Live.hasPermission (Live.start cfg throws e s) = Live.hasPermission s
  ∧ Live.unmounted (Live.start cfg throws e s) = Live.unmounted s.
Proof.
  unfold Live.start, Live.stopAllCameras. simpl.
  repeat (case_match; simpl in *; simplify_eq; auto).
Qed.

Lemma live_onDecodeResult_view results s :
  Live.onDecodeResult results s = s
  ∨ ∃ d, Live.onDecodeResult results s = Live.setLastResult d s.
Proof.
  unfold Live.onDecodeResult.
  repeat (case_match; simpl in *; simplify_eq; eauto).
Qed.

Lemma live_DecodeResult_view cfg results s :
  Live.step cfg (Live.DecodeResult results) s = s
  ∨ ∃ d, Live.step cfg (Live.DecodeResult results) s = Live.setLastResult d s.
Proof.
  simpl. induction (listeners (native (Live.core s))) as [|a l IH]; simpl; [by left|].
  destruct IH as [-> | [d ->]].
  - apply live_onDecodeResult_view.
  - destruct (live_onDecodeResult_view results (Live.setLastResult d s))
      as [-> | [d' ->]]; right; eauto.
Qed.

Lemma lifecycle_onDecodeResult_view throws results s :
  Lifecycle.scannerType (Lifecycle.onDecodeResult throws results s)
  = Lifecycle.scannerType s
  ∧ Lifecycle.androidPermission (Lifecycle.onDecodeResult throws results s)
    = Lifecycle.androidPermission s
  ∧ Lifecycle.screenMounted (Lifecycle.onDecodeResult throws results s)
    = Lifecycle.screenMounted s
  ∧ Lifecycle.unmounted (Lifecycle.onDecodeResult throws results s)
    = Lifecycle.unmounted s.
Proof.
  unfold Lifecycle.onDecodeResult, Lifecycle.stopAll.
  repeat (case_match; simpl in *; simplify_eq; auto).
Qed.

Lemma lifecycle_DecodeResult_view cfg throws results s :
  let s' := Lifecycle.step cfg (Lifecycle.DecodeResult results throws) s in
  Lifecycle.scannerType s' = Lifecycle.scannerType s
  ∧ Lifecycle.androidPermission s' = Lifecycle.androidPermission s
  ∧ Lifecycle.screenMounted s' = Lifecycle.screenMounted s
  ∧ Lifecycle.unmounted s' = Lifecycle.unmounted s.
Proof.
  simpl. induction (listeners (native (Lifecycle.core s))) as [|a l IH]; simpl; [done|].
  destruct IH as (I1 & I2 & I3 & I4).
  destruct (lifecycle_onDecodeResult_view throws results
              (foldr (fun _ x => Lifecycle.onDecodeResult throws results x) s l))
    as (E1 & E2 & E3 & E4).
  split_and!; congruence.
Qed.

(** X10.  The selected backend changes only through its buttons, and only
    while they are shown: on the live screen a step changes [scannerType]
    only if it is the press of the button of the new backend with the
    scanner view rendered; on the screen with the explicit lifecycle only
    if it is the selection of the new backend in the idle view, so never
    while scanning. *)
Theorem selection_changes_only_by_its_buttons (cfg : Config) :
  (∀ ev s,
     Live.scannerType (Live.step cfg ev s) ≠ Live.scannerType s →
     Live.buttonsShown s = true
     ∧ ∃ throws, ev = Live.Press (Live.scannerType (Live.step cfg ev s)) throws)
  ∧ (∀ ev l,
       Lifecycle.scannerType (Lifecycle.step cfg ev l) ≠ Lifecycle.scannerType l →
       Lifecycle.render cfg l = Lifecycle.IdleView
       ∧ ev = Lifecycle.SelectType (Lifecycle.scannerType (Lifecycle.step cfg ev l))).
Proof.
  split.
  - intros ev s Hne. destruct ev; simpl in *.
    + destruct (Live.screenMounted s); simpl in *; [done|].
      destruct (Live.unmounted s); simpl in *; [done|].
      unfold Live.runEffect in Hne.
      by rewrite (proj1 (live_start_view _ _ _ _)) in Hne.
    + destruct (Live.screenMounted s); [|done].
      unfold Live.cleanup, Live.stopAllCameras in Hne.
      by destruct (Live.effect s).
    + by destruct (platformIsAndroid cfg).
    + done.
    + unfold Live.press in *. destruct (Live.buttonsShown s); [|done].
      split; [done|]. exists throws. f_equal.
      case_bool_decide; [|done].
      unfold Live.runEffect. rewrite (proj1 (live_start_view _ _ _ _)). simpl.
      unfold Live.cleanup, Live.stopAllCameras. simpl.
      by destruct (Live.effect s).
    + unfold Live.settle in Hne.
      repeat (case_match; simpl in *; simplify_eq; try done).
    + destruct (live_DecodeResult_view cfg results s) as [E | [d E]];
        simpl in E; by rewrite E in Hne.
    + unfold Live.onCodeScanned in Hne.
      repeat (case_match; simpl in *; simplify_eq; try done).
  - intros ev l Hne. destruct ev; simpl in *.
    + by destruct (Lifecycle.screenMounted l), (Lifecycle.unmounted l).
    + by destruct (Lifecycle.screenMounted l).
    + by destruct (platformIsAndroid cfg).
    + done.
    + by destruct (Lifecycle.render cfg l).
    + destruct (Lifecycle.render cfg l); try done.
      unfold Lifecycle.pressStart in Hne. simpl in Hne.
      repeat (case_match; simpl in *; simplify_eq; try done).
    + by destruct (Lifecycle.render cfg l).
    + by destruct (Lifecycle.render cfg l).
    + unfold Lifecycle.settle in Hne.
      repeat (case_match; simpl in *; simplify_eq; try done).
    + pose proof (proj1 (lifecycle_DecodeResult_view cfg throws results l)) as E.
      simpl in E. by rewrite E in Hne.
    + destruct (Lifecycle.render cfg l) as [| | |[]|]; try done.
      unfold Lifecycle.onCodeScanned in Hne.
      repeat (case_match; simpl in *; simplify_eq; try done).
Qed.

Lemma selection_changes_example :
  let s := Live.run cfgKey [Live.Mount noFault] (Live.init cfgKey true) in
  Live.scannerType s = cortex
  ∧ Live.scannerType (Live.step cfgKey (Live.Press vision noFault) s) = vision
  ∧ Live.buttonsShown s = true.
Proof.
  intros s. split; [reflexivity|]. split; [reflexivity|].
  assert (Live.scannerType (Live.step cfgKey (Live.Press vision noFault) s)
          ≠ Live.scannerType s) as Hne by (intros H; discriminate H).
  exact (proj1 (proj1 (selection_changes_only_by_its_buttons cfgKey)
                  (Live.Press vision noFault) s Hne)).
Defined.

Lemma live_step_androidPermission cfg ev s :
  platformIsAndroid cfg = false →
  Live.androidPermission (Live.step cfg ev s) = Live.androidPermission s.
Proof.
  intros Hp. destruct ev; simpl.
  - destruct (Live.screenMounted s); simpl; [done|].
    destruct (Live.unmounted s); simpl; [done|].
    unfold Live.runEffect.
    by rewrite (proj1 (proj2 (proj2 (live_start_view _ _ _ _)))).
  - destruct (Live.screenMounted s); [|done].
    unfold Live.cleanup, Live.stopAllCameras. by destruct (Live.effect s).
  - by rewrite Hp.
  - done.
  - unfold Live.press. destruct (Live.buttonsShown s); [|done].
    case_bool_decide; [|done].
    unfold Live.runEffect.
    rewrite (proj1 (proj2 (proj2 (live_start_view _ _ _ _)))). simpl.
    unfold Live.cleanup, Live.stopAllCameras. simpl.
    destruct (Live.effect s); by simpl.
  - unfold Live.settle.
    repeat (case_match; simpl in *; simplify_eq; try done).
  - destruct (live_DecodeResult_view cfg results s) as [E | [d E]];
      simpl in E; by rewrite E.
  - unfold Live.onCodeScanned.
    repeat (case_match; simpl in *; simplify_eq; try done).
Qed.

Lemma lifecycle_step_androidPermission cfg ev s :
  platformIsAndroid cfg = false →
  Lifecycle.androidPermission (Lifecycle.step cfg ev s) = Lifecycle.androidPermission s.
Proof.
  intros Hp. destruct ev; simpl.
  - by destruct (Lifecycle.screenMounted s), (Lifecycle.unmounted s).
  - by destruct (Lifecycle.screenMounted s).
  - by rewrite Hp.
  - done.
  - by destruct (Lifecycle.render cfg s).
  - destruct (Lifecycle.render cfg s); try done.
    unfold Lifecycle.pressStart. simpl.
    repeat (case_match; simpl in *; simplify_eq; try done).
  - by destruct (Lifecycle.render cfg s).
  - by destruct (Lifecycle.render cfg s).
  - unfold Lifecycle.settle.
    repeat (case_match; simpl in *; simplify_eq; try done).
  - pose proof (lifecycle_DecodeResult_view cfg throws results s) as (_ & E & _).
    by simpl in E.
  - destruct (Lifecycle.render cfg s) as [| | |[]|]; try done.
    unfold Lifecycle.onCodeScanned.
    repeat (case_match; simpl in *; simplify_eq; try done).
Qed.

(** X11.  Off Android the platform grant starts out satisfied and nothing
    takes it away: in every state either screen can reach,
    [androidPermission] is true, so a mounted screen shows the permission
    message exactly when the camera permission of the vision framework is
    missing. *)
Theorem platform_grant_is_satisfied_off_android
    (cfg : Config) (hasPermission0 : bool) :
  platformIsAndroid cfg = false →
  (∀ evs,
     let s := Live.run cfg evs (Live.init cfg hasPermission0) in
     Live.androidPermission s = true
     ∧ (Live.screenMounted s = true →
        (Live.render cfg s = Live.PermissionMessage ↔ Live.hasPermission s = false)))
  ∧ (∀ evs,
       let l := Lifecycle.run cfg evs (Lifecycle.init cfg hasPermission0) in
       Lifecycle.androidPermission l = true
       ∧ (Lifecycle.screenMounted l = true →
          (Lifecycle.render cfg l = Lifecycle.PermissionMessage
           ↔ Lifecycle.hasPermission l = false))).
Proof.
  intros Hp.
  assert (∀ evs s, Live.androidPermission (Live.run cfg evs s)
                   = Live.androidPermission s) as HL.
  { induction evs as [|ev evs IH]; intros s; simpl; [done|].
    by rewrite IH, live_step_androidPermission. }
  assert (∀ evs s, Lifecycle.androidPermission (Lifecycle.run cfg evs s)
                   = Lifecycle.androidPermission s) as HC.
  { induction evs as [|ev evs IH]; intros s; simpl; [done|].
    by rewrite IH, lifecycle_step_androidPermission. }
  split; intros evs s.
  - assert (Live.androidPermission s = true) as Ha.
    { subst s. rewrite HL. simpl. by rewrite Hp. }
    split; [done|]. intros Hm. unfold Live.render. rewrite Hm, Ha. simpl.
    destruct (Live.hasPermission s); simpl; split; done.
  - assert (Lifecycle.androidPermission s = true) as Ha.
    { subst s. rewrite HC. simpl. by rewrite Hp. }
    split; [done|]. intros Hm. unfold Lifecycle.render. rewrite Hm, Ha. simpl.
    destruct (Lifecycle.hasPermission s); simpl; split; try done.
    by destruct (Lifecycle.state s).
Qed.

Lemma platform_grant_example :
  platformIsAndroid cfgKey = false
  ∧ Live.androidPermission
      (Live.run cfgKey
         [Live.Mount noFault; Live.AndroidPermissionResult false;
          Live.CameraPermission false]
         (Live.init cfgKey true)) = true.
Proof.
  split; [reflexivity|].
  exact (proj1 (proj1 (platform_grant_is_satisfied_off_android cfgKey true eq_refl)
                  [Live.Mount noFault; Live.AndroidPermissionResult false;
                   Live.CameraPermission false])).
Defined.

(** ** Starts that complete *)












(** X15.  A vision session of the screen with the explicit lifecycle
    never touches the cortex SDK or the license: with vision selected and
    a back camera present, the start button shows the vision camera and
    leaves the refs, the native side and the log of calls as they were,
    and a batch whose first code has the non-empty value [v] shows the
    result view with [v], again without any call. *)
Theorem vision_session_issues_no_sdk_call
    (cfg : Config) (l : Lifecycle.State) (throws : Faults)
    (v : string) (rest : list Code) :
  Lifecycle.render cfg l = Lifecycle.IdleView →
  Lifecycle.scannerType l = vision →
  backDevice cfg = true →
  v ≠ "" →
  let l1 := Lifecycle.step cfg (Lifecycle.PressStart throws) l in
  let l2 := Lifecycle.step cfg
              (Lifecycle.CodeScanned ({| value := Some v |} :: rest)) l1 in
  Lifecycle.render cfg l1 = Lifecycle.ScanningView Lifecycle.Camera
  ∧ Lifecycle.core l1 = Lifecycle.core l
  ∧ Lifecycle.pending l1 = Lifecycle.pending l
  ∧ Lifecycle.unhandled l1 = Lifecycle.unhandled l
  ∧ Lifecycle.render cfg l2 = Lifecycle.ResultView v
  ∧ Lifecycle.core l2 = Lifecycle.core l.
Proof.
  intros Hr Ht Hd Hv l1 l2.
  assert (Lifecycle.screenMounted l = true
          ∧ Lifecycle.androidPermission l = true
          ∧ Lifecycle.hasPermission l = true) as (Hm & Ha & Hh).
  { unfold Lifecycle.render in Hr.
    destruct (Lifecycle.screenMounted l), (Lifecycle.androidPermission l),
      (Lifecycle.hasPermission l); simpl in Hr; done. }
  assert (l1 = Lifecycle.setState Lifecycle.scanning (Lifecycle.setResult "" l)) as E1.
  { unfold l1. simpl. rewrite Hr. unfold Lifecycle.pressStart. simpl. by rewrite Ht. }
  clearbody l1.
  assert (Lifecycle.render cfg l1 = Lifecycle.ScanningView Lifecycle.Camera) as Hr1.
  { rewrite E1. unfold Lifecycle.render. simpl. by rewrite Hm, Ha, Hh, Ht, Hd. }
  assert (l2 = Lifecycle.setState Lifecycle.result_ (Lifecycle.setResult v l1)) as E2.
  { unfold l2. simpl. rewrite Hr1. simpl. by rewrite decide_False by done. }
  clearbody l2.
  split_and!.
  - done.
  - by rewrite E1.
  - by rewrite E1.
  - by rewrite E1.
  - rewrite E2, E1. unfold Lifecycle.render. simpl. by rewrite Hm, Ha, Hh.
  - by rewrite E2, E1.
Qed.

Lemma vision_session_example :
  let l := Lifecycle.run cfgNoKey
             [Lifecycle.Mount; Lifecycle.SelectType vision]
             (Lifecycle.init cfgNoKey true) in
  let l2 := Lifecycle.run cfgNoKey
              [Lifecycle.PressStart noFault;
               Lifecycle.CodeScanned [ {| value := Some "QR" |} ]] l in
  Lifecycle.render cfgNoKey l = Lifecycle.IdleView
  ∧ Lifecycle.render cfgNoKey l2 = Lifecycle.ResultView "QR"
  ∧ Lifecycle.core l2 = Lifecycle.core l.
Proof.
  intros l l2. split; [reflexivity|].
  assert ("QR" ≠ "") as Hne by (intros H; discriminate H).
  destruct (vision_session_issues_no_sdk_call cfgNoKey l noFault "QR" []
              eq_refl eq_refl eq_refl Hne)
    as (_ & _ & _ & _ & Hr & Hc).
  exact (conj Hr Hc).
Defined.





(** ** A start that resumes after the teardown *)

Lemma live_step_after_unmount cfg ev s :
  Live.screenMounted s = false → Live.unmounted s = true →
  Live.pending s = [] →
  Live.screenMounted (Live.step cfg ev s) = false
  ∧ Live.unmounted (Live.step cfg ev s) = true
  ∧ Live.pending (Live.step cfg ev s) = []
  ∧ Live.core (Live.step cfg ev s) = Live.core s.
Proof.
  intros Hm Hu Hp. destruct ev; simpl.
  - by rewrite Hm, Hu.
  - by rewrite Hm.
  - by destruct (platformIsAndroid cfg).
  - done.
  - unfold Live.press, Live.buttonsShown. by rewrite Hm.
  - unfold Live.settle. by rewrite Hp.
  - destruct (live_DecodeResult_view cfg results s) as [E | [d E]];
      simpl in E; by rewrite E.
  - unfold Live.render. by rewrite Hm.
Qed.

(** C8, at the failing input.  The live screen is mounted with cortex
    selected and the activation pending; the screen is unmounted, which
    runs the stop routine; the activation then succeeds.  The resumed
    start attaches the listener and switches the cortex pipeline on with
    the screen unmounted, and whatever events follow, the listener stays
    attached and the pipeline on: nothing is left that would run the stop
    routine. *)
Theorem subscription_outlives_the_teardown :
  let s0 := Live.run cfgKey [Live.Mount noFault; Live.Unmount noFault]
              (Live.init cfgKey true) in
  let s := Live.step cfgKey (Live.ActivationSettled 0 true noFault) s0 in
  (Live.render cfgKey s0 = Live.NotMounted
   ∧ subscriptionRef (Live.core s0) = None
   ∧ listeners (native (Live.core s0)) = [])
  ∧ ∀ evs,
      Live.render cfgKey (Live.run cfgKey evs s) = Live.NotMounted
      ∧ subscriptionRef (Live.core (Live.run cfgKey evs s)) = Some 0%nat
      ∧ listeners (native (Live.core (Live.run cfgKey evs s))) = [0%nat]
      ∧ Live.cortexActive (Live.run cfgKey evs s) = true.
Proof.
  intros s0 s. split; [by vm_compute|].
  assert (∀ evs x,
            Live.screenMounted x = false → Live.unmounted x = true →
            Live.pending x = [] →
            Live.screenMounted (Live.run cfgKey evs x) = false
            ∧ Live.core (Live.run cfgKey evs x) = Live.core x) as Hrun.
  { induction evs as [|ev evs IH]; intros x Hm Hu Hp; simpl; [done|].
    destruct (live_step_after_unmount cfgKey ev x Hm Hu Hp) as (Hm' & Hu' & Hp' & Hc').
    destruct (IH _ Hm' Hu' Hp') as [E1 E2]. split; [done|congruence]. }
  intros evs.
  destruct (Hrun evs s eq_refl eq_refl eq_refl) as [Hm Hc].
  unfold Live.render, Live.cortexActive. rewrite Hm, Hc. by vm_compute.
Qed.

(** ** Starts while the permission is missing *)

Ltac count_calls :=
  simpl;
  repeat first [rewrite filter_cons_True by done
               |rewrite filter_cons_False by done];
  simpl; lia.

Lemma stopAllCameras_counts throws c :
  startCalls (stopAllCameras throws c).2 = startCalls c
  ∧ activationCalls (stopAllCameras throws c).2 = activationCalls c.
Proof.
  unfold startCalls, activationCalls.
  sync_cases; split; try done; count_calls.
Qed.

Lemma startCortex_begin_counts cfg msg throws c :
  licenseActivatedRef c = false →
  startCalls (startCortex_begin cfg msg throws c).2 = startCalls c
  ∧ (activationCalls (startCortex_begin cfg msg throws c).2
     ≤ S (activationCalls c))%nat
  ∧ licenseActivatedRef (startCortex_begin cfg msg throws c).2 = false
  ∧ (startCortex_begin cfg msg throws c).1 ≠ Returned Completed.
Proof.
  intros Hf. unfold startCalls, activationCalls.
  sync_cases; split_and!; try done; count_calls.
Qed.

Lemma startCortex_resume_counts throws fulfilled c :
  (startCalls (startCortex_resume throws fulfilled c).2 ≤ 4 + startCalls c)%nat
  ∧ activationCalls (startCortex_resume throws fulfilled c).2 = activationCalls c.
Proof.
  unfold startCalls, activationCalls.
  sync_cases; split_and!; try done; count_calls.
Qed.

Lemma live_runEffect_cortex cfg throws s :
  Live.scannerType s = cortex →
  Live.core (Live.runEffect cfg throws s)
  = (startCortex_begin cfg Live.missingKeyMessage throws
       (stopAllCameras throws (Live.core s)).2).2
  ∧ Live.pending (Live.runEffect cfg throws s)
    = match (startCortex_begin cfg Live.missingKeyMessage throws
               (stopAllCameras throws (Live.core s)).2).1 with
      | Returned AwaitingActivation =>
          (Live.pending s ++ [length (Live.mounted s)])%list
      | _ => Live.pending s
      end
  ∧ Live.mounted (Live.runEffect cfg throws s) = (Live.mounted s ++ [true])%list
  ∧ Live.scannerType (Live.runEffect cfg throws s) = cortex
  ∧ Live.screenMounted (Live.runEffect cfg throws s) = Live.screenMounted s
  ∧ Live.unmounted (Live.runEffect cfg throws s) = Live.unmounted s.
Proof.
  intros Hs. unfold Live.runEffect, Live.start, Live.mountedOf, Live.stopAllCameras.
  simpl. rewrite lookup_app_r by done. rewrite Nat.sub_diag. simpl. rewrite Hs.
  by destruct (startCortex_begin cfg Live.missingKeyMessage throws
                 (stopAllCameras throws (Live.core s)).2) as [[[]|] ?].
Qed.

Lemma live_step_mount_start_only cfg ev s :
  Live.androidPermission s && Live.hasPermission s = false →
  mount_start_only s → mount_start_only (Live.step cfg ev s).
Proof.
  intros Hd Hk. pose proof Hk as (Hs & Hlen & Hbud & Hact & Hfresh).
  destruct ev; simpl.
  - destruct (Live.screenMounted s) eqn:Hm; simpl; [done|].
    destruct (Live.unmounted s) eqn:Hu; simpl; [done|].
    destruct (Hfresh eq_refl eq_refl) as (Em & Ep & Ef & Ea & Est).
    destruct (live_runEffect_cortex cfg throws (Live.set_screenMounted true s) Hs)
      as (Ec & Epd & Emt & Esc & Esm & _).
    simpl in Ec, Epd, Emt, Esm.
    destruct (stopAllCameras_counts throws (Live.core s)) as [S1 A1].
    destruct (startCortex_begin_counts cfg Live.missingKeyMessage throws
                (stopAllCameras throws (Live.core s)).2) as (S2 & A2 & _ & _).
    { by rewrite (proj2 (stopAllCameras_refs throws _)). }
    unfold mounted_consistent, mount_start_only.
    rewrite Ec, Epd, Emt, Esc, Esm, Em, Ep, S2, S1, Est.
    split_and!; try done.
    + repeat case_match; simpl; lia.
    + lia.
  - destruct (Live.screenMounted s) eqn:Hm; [|done].
    unfold mount_start_only, Live.cleanup, Live.stopAllCameras. simpl.
    destruct (stopAllCameras_counts throws (Live.core s)) as [S1 A1].
    destruct (Live.effect s); simpl; rewrite ?length_insert, ?S1, ?A1;
      split_and!; done.
  - destruct (platformIsAndroid cfg); done.
  - done.
  - unfold Live.press, Live.buttonsShown.
    destruct (Live.screenMounted s); simpl; [|done]. by rewrite Hd.
  - unfold Live.settle. destruct (Live.pending s !! i) as [e|] eqn:Hi; [|done].
    assert (i < length (Live.pending s))%nat as Hlt by (by eapply lookup_lt_Some).
    assert (length (Live.pending s) = 1%nat ∧ startCalls (Live.core s) = 0%nat)
      as [Hone Hzero] by lia.
    destruct (startCortex_resume_counts throws fulfilled (Live.core s)) as [S3 A3].
    assert (length (delete i (Live.pending s)) = 0%nat) as Hdel.
    { rewrite length_delete by done. lia. }
    unfold mount_start_only. simpl.
    destruct (startCortex_resume throws fulfilled (Live.core s)) as [[[]|err] c]
      eqn:Er; simpl in *; rewrite Hdel;
      (split_and!; [done|done|lia|lia|]);
      intros Hm Hu; destruct (Hfresh Hm Hu) as (_ & Ep & _); rewrite Ep in Hi;
      by rewrite lookup_nil in Hi.
  - destruct (live_DecodeResult_view cfg results s) as [E | [d E]];
      simpl in E; by rewrite E.
  - unfold Live.onCodeScanned.
    repeat (case_match; simpl in *; simplify_eq; try done).
Qed.

Lemma live_run_mount_start_only cfg evs s :
  live_denied_throughout cfg evs s →
  mount_start_only s → mount_start_only (Live.run cfg evs s).
Proof.
  revert s. induction evs as [|ev evs IH]; intros s [Hd Hrest] Hk; simpl; [done|].
  apply IH; [done|]. by apply live_step_mount_start_only.
Qed.

Lemma live_run_denied_last cfg evs s :
  live_denied_throughout cfg evs s →
  Live.androidPermission (Live.run cfg evs s)
  && Live.hasPermission (Live.run cfg evs s) = false.
Proof.
  revert s. induction evs as [|ev evs IH]; intros s [Hd Hrest]; simpl; [done|].
  by apply IH.
Qed.

Lemma lifecycle_render_denied cfg l :
  Lifecycle.androidPermission l && Lifecycle.hasPermission l = false →
  Lifecycle.render cfg l = Lifecycle.NotMounted
  ∨ Lifecycle.render cfg l = Lifecycle.PermissionMessage.
Proof.
  intros Hd. unfold Lifecycle.render.
  destruct (Lifecycle.screenMounted l); simpl; [|by left].
  destruct (Lifecycle.androidPermission l), (Lifecycle.hasPermission l);
    simpl in *; try done; by right.
Qed.

Lemma lifecycle_step_denied cfg ev l :
  Lifecycle.androidPermission l && Lifecycle.hasPermission l = false →
  never_started (Lifecycle.core l) ∧ Lifecycle.pending l = 0%nat →
  never_started (Lifecycle.core (Lifecycle.step cfg ev l))
  ∧ Lifecycle.pending (Lifecycle.step cfg ev l) = 0%nat.
Proof.
  intros Hd [Hs Hp].
  destruct (lifecycle_render_denied cfg l Hd) as [Hr|Hr]; destruct ev; simpl;
    rewrite ?Hr; try done.
  all: try (destruct (Lifecycle.screenMounted l), (Lifecycle.unmounted l); done).
  all: try (destruct (Lifecycle.screenMounted l); simpl; [|done];
            split; [by apply stopAllCameras_never_started|done]).
  all: try (by destruct (platformIsAndroid cfg)).
  all: try (unfold Lifecycle.settle; by rewrite Hp).
  all: apply (foldr_preserves
               (fun x => never_started (Lifecycle.core x)
                         ∧ Lifecycle.pending x = 0%nat)); [|done];
    intros x [Hx Hpx]; (split;
      [destruct (lifecycle_onDecodeResult_core throws results x) as [-> | ->];
         [done|by apply stopAllCameras_never_started]
      |unfold Lifecycle.onDecodeResult;
       repeat (case_match; simpl in *; simplify_eq; try done)]).
Qed.

Lemma lifecycle_run_denied cfg evs l :
  lifecycle_denied_throughout cfg evs l →
  never_started (Lifecycle.core l) ∧ Lifecycle.pending l = 0%nat →
  (never_started (Lifecycle.core (Lifecycle.run cfg evs l))
   ∧ Lifecycle.pending (Lifecycle.run cfg evs l) = 0%nat)
  ∧ Lifecycle.androidPermission (Lifecycle.run cfg evs l)
    && Lifecycle.hasPermission (Lifecycle.run cfg evs l) = false.
Proof.
  revert l. induction evs as [|ev evs IH]; intros l [Hd Hrest] Hj; simpl; [done|].
  apply IH; [done|]. by apply lifecycle_step_denied.
Qed.

(** C2 (as amended).  While the permission is not granted from the first
    render on (the platform grant and the framework grant are not both
    true), a mounted screen shows the permission message and nothing else
    and the vision camera is never active.  On the screen with the
    explicit lifecycle no start is ever issued: no start is suspended,
    the license is not activated and nothing but calls of the teardown
    sequence has reached the SDK.  On the live screen the selection stays
    cortex, the [scannerType] effect has run at most once, at mount, and
    the only start is the one of that run: [activateLicense] has been
    called at most once, and the start calls are at most the four that
    its one suspended start issues when it resumes. *)
Theorem permission_denied_allows_only_the_mount_start
    (cfg : Config) (hasPermission0 : bool) :
  (∀ evs,
     live_denied_throughout cfg evs (Live.init cfg hasPermission0) →
     let s := Live.run cfg evs (Live.init cfg hasPermission0) in
     (Live.screenMounted s = true → Live.render cfg s = Live.PermissionMessage)
     ∧ Live.visionActive cfg s = false
     ∧ Live.scannerType s = cortex
     ∧ (length (Live.mounted s) ≤ 1)%nat
     ∧ (activationCalls (Live.core s) ≤ 1)%nat
     ∧ (4 * length (Live.pending s) + startCalls (Live.core s) ≤ 4)%nat)
  ∧ (∀ evs,
       lifecycle_denied_throughout cfg evs (Lifecycle.init cfg hasPermission0) →
       let l := Lifecycle.run cfg evs (Lifecycle.init cfg hasPermission0) in
       (Lifecycle.screenMounted l = true →
        Lifecycle.render cfg l = Lifecycle.PermissionMessage)
       ∧ Lifecycle.pending l = 0%nat
       ∧ licenseActivatedRef (Lifecycle.core l) = false
       ∧ Forall (fun x => teardownCall x = true)
           (calls (native (Lifecycle.core l)))).
Proof.
  split.
  - intros evs Hd s.
    assert (mount_start_only s) as (Hs & Hlen & Hbud & Hact & _).
    { apply live_run_mount_start_only; [done|].
      unfold mount_start_only, startCalls, activationCalls. simpl.
      split_and!; try done; lia. }
    pose proof (live_run_denied_last cfg evs _ Hd) as Hlast. fold s in Hlast.
    assert (Live.screenMounted s = true → Live.render cfg s = Live.PermissionMessage)
      as Hr.
    { intros Hm. unfold Live.render. rewrite Hm. simpl.
      by destruct (Live.androidPermission s), (Live.hasPermission s). }
    split_and!; try done.
    unfold Live.visionActive, Live.render.
    destruct (Live.screenMounted s); simpl; [|done].
    by destruct (Live.androidPermission s), (Live.hasPermission s).
  - intros evs Hd l.
    destruct (lifecycle_run_denied cfg evs _ Hd) as [[[Hf Hc] Hp] Hlast].
    { split; [split; [done|constructor]|done]. }
    fold l in Hf, Hc, Hp, Hlast.
    split_and!; try done.
    intros Hm. destruct (lifecycle_render_denied cfg l Hlast) as [Hr|Hr]; [|done].
    unfold Lifecycle.render in Hr. rewrite Hm in Hr. simpl in Hr.
    by repeat case_match.
Qed.

Lemma denied_run_example :
  let evs := [Live.Mount noFault; Live.AndroidPermissionResult false;
              Live.ActivationSettled 0 true noFault; Live.Press vision noFault] in
  let s := Live.run cfgAndroid evs (Live.init cfgAndroid true) in
  live_denied_throughout cfgAndroid evs (Live.init cfgAndroid true)
  ∧ Live.screenMounted s = true
  ∧ Live.render cfgAndroid s = Live.PermissionMessage
  ∧ Live.scannerType s = cortex
  ∧ (activationCalls (Live.core s) ≤ 1)%nat
  ∧ (4 * length (Live.pending s) + startCalls (Live.core s) ≤ 4)%nat.
Proof.
  intros evs s.
  assert (live_denied_throughout cfgAndroid evs (Live.init cfgAndroid true)) as Hd.
  { simpl. repeat split. }
  destruct (proj1 (permission_denied_allows_only_the_mount_start cfgAndroid true)
              evs Hd)
    as (Hr & _ & Hs & _ & Ha & Hb).
  split; [exact Hd|]. split; [reflexivity|].
  exact (conj (Hr eq_refl) (conj Hs (conj Ha Hb))).
Defined.
